(** * Browser-AI-Agent: the action interpreter of [runBrowserAgent]

    A shallow embedding of the TypeScript program (the version with the six
    actions navigate / type / click / wait / extractCode / refineCode) and
    the properties of its step loop.

    - [Js]: the JavaScript values the program handles (the result of
      [JSON.parse], strings, numbers) and the built-in operations the
      source applies to them ([typeof], truthiness, property access,
      template-literal [ToString], [String.prototype.trim], [parseInt]).
    - [Agent]: the program.  Every call that leaves the program (browser
      page, chat completion, file system, console) is appended to a trace,
      and its outcome is asked from an environment that sees the trace so
      far; the two [let] variables of [runBrowserAgent] and the files
      written are threaded as the state of a small state-and-error monad.
    - [Spec], [Scenarios]: the vocabulary of the properties and concrete
      collaborators to run the program against.
    - [Legacy], [Branches]: the loop of the earlier [src/index.ts], and the
      vocabulary of the remaining branches and of the driver.
    - Properties: the equations of the loop body, the invariants of a run,
      and the statements about well-formed runs, skipped refinements, the
      iteration counter, failing clicks, the extract/refine round trip, the
      provider's replies, the artifact files, non-numeric waits, the exit
      status and the steps that leave the variables alone; then the other
      branches of the loop, the reading of a response, [parseInt] on
      integers, and the driver before and after the loop. *)

From Stdlib Require Import ZArith Ascii String DecimalString DecimalZ QArith Lia.
From stdpp Require Import base strings list gmap.

Set Warnings "-register-all".

Local Open Scope Z_scope.
Local Open Scope string_scope.
Local Open Scope list_scope.

(* ===================================================================== *)
(** ** JavaScript values and built-ins *)
(* ===================================================================== *)

Module Js.

(** Strings are sequences of code units below 256; the double quote is
    written [dq]. *)
Definition dq : string := String (ascii_of_nat 34) EmptyString.
Definition nl : string := String (ascii_of_nat 10) EmptyString.

(** The integers every double holds exactly: up to 2^53 - 1 in
    magnitude. *)
Definition max_safe_integer : Z := 9007199254740991.

Definition safe_integer (z : Z) : bool :=
  (Z.abs z <=? max_safe_integer)%Z.

(** The numbers the program computes with: the literal timeouts and what
    [parseInt] returns.  [NaN] when [parseInt] finds no digit; [Num z] for
    a safe integer [z]; [Rounded z] for the double the platform makes of a
    numeral that denotes the integer [z] beyond the safe integers (rounded,
    approximated past twenty digits, or infinite), which the model does
    not compute. *)
Inductive JsNum : Type :=
| NaN
| Num (z : Z)
| Rounded (z : Z).

(** The values [JSON.parse] builds, and [undefined] for what is absent.  An
    object is the list of its own properties, each name once.  A number is
    held as the text [Number::toString] gives for it (["2000"], ["2000.5"],
    ["1e+21"], ["0"] for either zero): the program only ever converts a
    number of the instructions to a string, tests it for truth or passes
    it on. *)
Inductive JsValue : Type :=
| JUndefined
| JNull
| JBool (b : bool)
| JNum (rendering : string)
| JStr (s : string)
| JArr (items : list JsValue)
| JObj (props : list (string * JsValue)).

Definition str_nonempty (s : string) : bool :=
  match s with
  | EmptyString => false
  | String _ _ => true
  end.

(** [ToBoolean]: what [if (v)] and [a && b] test. *)
Definition truthy (v : JsValue) : bool :=
  match v with
  | JUndefined | JNull => false
  | JBool b => b
  | JNum rendering => negb (String.eqb rendering "0")
  | JStr s => str_nonempty s
  | JArr _ | JObj _ => true
  end.

(** [typeof v === "object"]: true of objects, arrays and [null]. *)
Definition typeof_is_object (v : JsValue) : bool :=
  match v with
  | JNull | JArr _ | JObj _ => true
  | _ => false
  end.

Definition nullish (v : JsValue) : bool :=
  match v with
  | JUndefined | JNull => true
  | _ => false
  end.

Fixpoint assoc (k : string) (props : list (string * JsValue)) : JsValue :=
  match props with
  | [] => JUndefined
  | (k', v) :: rest => if String.eqb k k' then v else assoc k rest
  end.

(** [v.k] for the names the program reads ([action], [details],
    [selector], [text], [refinement], [choices], [message], [content]), none
    of which arrays, strings, numbers or booleans have: [None] is the
    [TypeError] of reading a property of [null] or [undefined]; a property
    that a value does not have reads as [undefined]. *)
Definition get_prop (v : JsValue) (k : string) : option JsValue :=
  match v with
  | JUndefined | JNull => None
  | JObj props => Some (assoc k props)
  | _ => Some JUndefined
  end.

(** [v[0]]. *)
Definition get_index0 (v : JsValue) : option JsValue :=
  match v with
  | JUndefined | JNull => None
  | JArr items => Some (hd JUndefined items)
  | JStr (String c _) => Some (JStr (String c EmptyString))
  | JObj props => Some (assoc "0" props)
  | _ => Some JUndefined
  end.

(** [Number::toString] of a safe integer: its decimal numeral.  It is
    applied to counters, to the literal timeouts and to what [parseInt]
    returns within the safe integers. *)
Definition number_to_string (z : Z) : string :=
  NilZero.string_of_int (Z.to_int z).

(** The number of the instructions that is the safe integer [z]. *)
Definition number (z : Z) : JsValue := JNum (number_to_string z).

Fixpoint has_key (k : string) (props : list (string * JsValue)) : bool :=
  match props with
  | [] => false
  | (k', _) :: rest => String.eqb k k' || has_key k rest
  end.

(** [ToString], as a template literal [`${v}`] and [parseInt] apply it;
    [None] is the [TypeError] "Cannot convert object to primitive value".
    An object of the instructions converts to ["[object Object]"] through
    the inherited [toString], unless it has a property [toString] of its
    own: that one is no function, and the [valueOf] tried next gives no
    primitive, so the conversion throws.  An array joins the conversions of
    its elements, [null] and [undefined] counting as empty. *)
Fixpoint to_string (v : JsValue) : option string :=
  match v with
  | JUndefined => Some "undefined"
  | JNull => Some "null"
  | JBool true => Some "true"
  | JBool false => Some "false"
  | JNum rendering => Some rendering
  | JStr s => Some s
  | JArr items =>
      (fix join (l : list JsValue) : option string :=
         match l with
         | [] => Some ""
         | x :: rest =>
             match (match x with
                    | JUndefined | JNull => Some ""
                    | _ => to_string x
                    end) with
             | None => None
             | Some sx =>
                 match rest with
                 | [] => Some sx
                 | _ :: _ =>
                     match join rest with
                     | None => None
                     | Some sr => Some (sx +:+ "," +:+ sr)
                     end
                 end
             end
         end) items
  | JObj props =>
      if has_key "toString" props then None else Some "[object Object]"
  end.

(** White space and line terminators among the code units below 256:
    TAB, LF, VT, FF, CR, SP, NBSP. *)
Definition is_white_space (c : ascii) : bool :=
  let n := nat_of_ascii c in
  ((n =? 9) || (n =? 10) || (n =? 11) || (n =? 12) || (n =? 13)
   || (n =? 32) || (n =? 160))%nat.

Fixpoint trim_start (s : string) : string :=
  match s with
  | EmptyString => EmptyString
  | String c rest => if is_white_space c then trim_start rest else s
  end.

Fixpoint trim_end (s : string) : string :=
  match s with
  | EmptyString => EmptyString
  | String c rest =>
      match trim_end rest with
      | EmptyString => if is_white_space c then EmptyString
                       else String c EmptyString
      | t => String c t
      end
  end.

(** [String.prototype.trim]. *)
Definition trim (s : string) : string := trim_end (trim_start s).

Definition digit_value (radix : Z) (c : ascii) : option Z :=
  let n := Z.of_nat (nat_of_ascii c) in
  let v := (if (48 <=? n) && (n <=? 57) then n - 48
            else if (97 <=? n) && (n <=? 122) then n - 87
            else if (65 <=? n) && (n <=? 90) then n - 55
            else 36)%Z in
  if (v <? radix)%Z then Some v else None.

(** The value of the longest prefix of digits; [acc] is [None] until a
    digit has been read. *)
Fixpoint parse_digits (radix : Z) (s : string) (acc : option Z) : option Z :=
  match s with
  | EmptyString => acc
  | String c rest =>
      match digit_value radix c with
      | Some d => parse_digits radix rest (Some (radix * default 0 acc + d))
      | None => acc
      end
  end.

(** [parseInt] of a string, with no radix: leading white space dropped, an
    optional sign, an optional [0x] / [0X] prefix selecting radix 16, then
    the longest prefix of digits; [NaN] when there is none, the integer
    read when it is a safe integer. *)
Definition parseInt_string (str : string) : JsNum :=
  let s := trim_start str in
  let '(sign, s1) :=
    match s with
    | String "-" r => (-1, r)
    | String "+" r => (1, r)
    | _ => (1, s)
    end in
  let '(radix, s2) :=
    match s1 with
    | String "0" (String "x" r) => (16, r)
    | String "0" (String "X" r) => (16, r)
    | _ => (10, s1)
    end in
  match parse_digits radix s2 None with
  | None => NaN
  | Some n => if safe_integer (sign * n) then Num (sign * n)
              else Rounded (sign * n)
  end.

(** [parseInt(v)]: [ToString] first, which may throw. *)
Definition parseInt (v : JsValue) : option JsNum :=
  option_map parseInt_string (to_string v).

End Js.

Import Js.

(* ===================================================================== *)
(** ** The program *)
(* ===================================================================== *)

Module Agent.

(** What a [throw] or a rejected promise carries. *)
Inductive Exn : Type :=
| TypeError (msg : string)
| Error (msg : string)
| External (what : string).

Inductive Result (A : Type) : Type :=
| Ok (a : A)
| Threw (e : Exn).
Arguments Ok {A} a.
Arguments Threw {A} e.

(** The argument of [openai.chat.completions.create]; the one message has
    role [user] and content [content]. *)
Record ChatRequest : Type := {
  model : string;
  content : string;
  temperature : Q;
  max_tokens : Z;
  n : Z
}.

Inductive Level : Type := LLog | LWarn | LError.

Inductive ConsoleArg : Type :=
| CVal (v : JsValue)
| CExn (e : Exn).

(** The calls that leave the program, with the arguments the source passes
    them.  [Click sel t] is [page.locator(sel).click({timeout: t})];
    [WriteFile name data] is the call of [fs.writeFileSync] for the file
    [name] of [__dirname], where every artifact lies;
    [ChatCreate] stands for building the client and calling it. *)
Inductive Event : Type :=
| Console (lvl : Level) (args : list ConsoleArg)
| ChatCreate (req : ChatRequest)
| Launch (headless : bool)
| NewContext
| NewPage
| Goto (url : JsValue)
| WaitForTimeout (ms : JsNum)
| Fill (selector text : JsValue)
| Click (selector : JsValue) (timeout : Z)
| WaitForSelector (selector : JsValue) (timeout : Z)
| InnerHTML
| WriteFile (name data : string)
| Screenshot (path : string).

Definition Trace : Type := list Event.

(** The collaborators.  Each function is asked with the trace that ends in
    the call being answered, so an answer may depend on everything the
    program has done so far. *)
Record Env : Type := {
  (** how a call that returns nothing useful settles: [None] when it
      succeeds, [Some e] when it throws or rejects with [e] *)
  settles : Trace -> option Exn;
  (** the response object of a chat completion *)
  chat_response : Trace -> Result JsValue;
  (** the markup [elementHandle.innerHTML()] resolves to *)
  inner_html : Trace -> Result string;
  (** [JSON.parse]: [None] when it throws a [SyntaxError] *)
  JSON_parse : string -> option JsValue;
  (** [Number::toString] of the double the platform makes of an integer
      beyond the safe integers *)
  rounded_text : Z -> string
}.

(** The variables [currentUIcode] and [iterationCount] of
    [runBrowserAgent].  A counter is a natural number: it is only ever
    incremented, once per element of an array. *)
Record RunState : Type := {
  currentUIcode : string;
  iterationCount : nat
}.

(** The state a run works on: its variables, the calls made so far, and
    the files the run has written into [__dirname], by name. *)
Record Machine : Type := {
  vars : RunState;
  trace : Trace;
  files : gmap string string
}.

(** Computations: read the environment, update the machine, return or
    throw. *)
Definition M (A : Type) : Type := Env -> Machine -> Machine * Result A.

Definition ret {A} (a : A) : M A := fun _ m => (m, Ok a).

Definition throw {A} (e : Exn) : M A := fun _ m => (m, Threw e).

Definition bind {A B} (c : M A) (k : A -> M B) : M B :=
  fun env m =>
    match c env m with
    | (m', Ok a) => k a env m'
    | (m', Threw e) => (m', Threw e)
    end.

Declare Scope agent_scope.
Delimit Scope agent_scope with agent.
Notation "x <- c ;; k" := (bind c (fun x => k))
  (at level 20, c at level 99, k at level 200, only parsing) : agent_scope.
Notation "' pat <- c ;; k" := (bind c (fun x => match x with pat => k end))
  (at level 20, pat pattern, c at level 99, k at level 200, only parsing)
  : agent_scope.
Notation "c ;; k" := (bind c (fun _ => k))
  (at level 100, k at level 200, only parsing, right associativity)
  : agent_scope.
Local Open Scope agent_scope.

(** [promise.catch(handler)]. *)
Definition promise_catch {A} (c : M A) (handler : Exn -> M A) : M A :=
  fun env m =>
    match c env m with
    | (m', Ok a) => (m', Ok a)
    | (m', Threw e) => handler e env m'
    end.

Definition record (ev : Event) (m : Machine) : Machine :=
  {| vars := vars m; trace := trace m ++ [ev]; files := files m |}.

Definition console (lvl : Level) (args : list ConsoleArg) : M unit :=
  fun _ m => (record (Console lvl args) m, Ok tt).

(** A call awaited for its completion only. *)
Definition await (ev : Event) : M unit :=
  fun env m =>
    let m' := record ev m in
    (m', match settles env (trace m') with
         | None => Ok tt
         | Some e => Threw e
         end).

Definition chat_completions_create (req : ChatRequest) : M JsValue :=
  fun env m =>
    let m' := record (ChatCreate req) m in
    (m', chat_response env (trace m')).

Definition element_innerHTML : M string :=
  fun env m =>
    let m' := record InnerHTML m in
    (m', inner_html env (trace m')).

Definition get_vars : M RunState := fun _ m => (m, Ok (vars m)).

Definition with_vars (st : RunState) (m : Machine) : Machine :=
  {| vars := st; trace := trace m; files := files m |}.

Definition set_vars (st : RunState) : M unit :=
  fun _ m => (with_vars st m, Ok tt).

Definition store (name data : string) (m : Machine) : Machine :=
  {| vars := vars m; trace := trace m; files := <[name := data]> (files m) |}.

(** [fs.writeFileSync(path.join(__dirname, name), data, "utf8")]: the file
    is created or replaced, unless the call throws. *)
Definition fs_writeFileSync (name data : string) : M unit :=
  fun env m =>
    let m' := record (WriteFile name data) m in
    match settles env (trace m') with
    | None => (store name data m', Ok tt)
    | Some e => (m', Threw e)
    end.

Definition text (s : string) : ConsoleArg := CVal (JStr s).

(** How an error message names [null] and [undefined]. *)
Definition nullish_name (v : JsValue) : string :=
  match v with
  | JNull => "null"
  | _ => "undefined"
  end.

(** [v.k] in the program: a [TypeError] on [null] and [undefined]. *)
Definition read (v : JsValue) (k : string) : M JsValue :=
  match get_prop v k with
  | Some x => ret x
  | None => throw (TypeError ("Cannot read properties of " +:+ nullish_name v
                              +:+ " (reading '" +:+ k +:+ "')"))
  end.

Definition not_convertible : Exn :=
  TypeError "Cannot convert object to primitive value".

(** [`${v}`] in the program. *)
Definition ToString (v : JsValue) : M string :=
  match to_string v with
  | Some s => ret s
  | None => throw not_convertible
  end.

(** [action === "..."]. *)
Definition is_action (action : JsValue) (name : string) : bool :=
  match action with
  | JStr a => String.eqb a name
  | _ => false
  end.

(** [response?.choices[0]?.message?.content?.trim() ?? ""], the expression
    both providers end with. *)
Definition message_text (response : JsValue) : Result string :=
  if nullish response then Ok ""
  else
    match get_index0 (default JUndefined (get_prop response "choices")) with
    | None =>
        Threw (TypeError
                 ("Cannot read properties of "
                  +:+ nullish_name
                        (default JUndefined (get_prop response "choices"))
                  +:+ " (reading '0')"))
    | Some choice =>
        if nullish choice then Ok ""
        else
          let message := default JUndefined (get_prop choice "message") in
          if nullish message then Ok ""
          else
            match default JUndefined (get_prop message "content") with
            | JUndefined | JNull => Ok ""
            | JStr s => Ok (trim s)
            | _ =>
                Threw (TypeError
                         "response?.choices[0]?.message?.content?.trim is not a function")
            end
    end.

Definition lift {A} (r : Result A) : M A := fun _ m => (m, r).

(** [try { JSON.parse(txt) } catch ...]. *)
Definition try_JSON_parse (txt : string) : M (option JsValue) :=
  fun env m => (m, Ok (JSON_parse env txt)).

Definition quoted (s : string) : string := dq +:+ s +:+ dq.

Definition unlines (ls : list string) : string :=
  String.concat nl ls.

Definition instructions_prompt (command : string) : string :=
  unlines [
    "You are an assistant that instructs a browser to interact with Vercel V0 with the following exact workflow:";
    "  ";
    "  1. Navigate to " +:+ quoted "https://v0.dev/" +:+ ".";
    "  2. Wait for 2000 milliseconds.";
    "  3. Click on the anchor tag with text " +:+ quoted "Sign in" +:+ ".";
    "  4. Wait for 2000 milliseconds.";
    "  5. In the textarea with id " +:+ quoted "chat-main-textarea"
      +:+ ", type the prompt: " +:+ quoted command +:+ ".";
    "  6. Click on the button with data-testid "
      +:+ quoted "prompt-form-send-button" +:+ ".";
    "  7. Wait for 3000 milliseconds for the UI to generate.";
    "  8. Extract the generated UI code from the element with class "
      +:+ quoted ".landing-page-ui" +:+ ".";
    "  9. Wait for 1000 milliseconds.";
    "  10. Refine the extracted UI code with the instruction: "
      +:+ quoted "Add responsive design using CSS media queries." +:+ ".";
    "  11. Wait for 1000 milliseconds.";
    "  12. Refine the UI code further with the instruction: "
      +:+ quoted "Optimize layout for better user experience." +:+ ".";
    "  ";
    "  Return the instructions as valid JSON, an array of objects where each object is in the format:";
    "  {";
    "    " +:+ quoted "action" +:+ ": " +:+ quoted "<action name>" +:+ ",";
    "    " +:+ quoted "details" +:+ ": <action details>";
    "  }";
    "  ";
    "  For actions:";
    "  - " +:+ quoted "navigate" +:+ " expects a URL string.";
    "  - " +:+ quoted "wait" +:+ " expects a number in milliseconds.";
    "  - " +:+ quoted "type" +:+ " expects an object with "
      +:+ quoted "selector" +:+ " and " +:+ quoted "text" +:+ ".";
    "  - " +:+ quoted "click" +:+ " expects a CSS selector string (use the data attribute for the button, e.g., [data-testid='prompt-form-send-button'] or a text based selector for the anchor).";
    "  - " +:+ quoted "extractCode" +:+ " expects a CSS selector string.";
    "  - " +:+ quoted "refineCode" +:+ " expects an object with a "
      +:+ quoted "refinement" +:+ " key.";
    "  ";
    "  Return only the JSON."
  ].

Definition generateInstructions (command : string) : M JsValue :=
  response <- chat_completions_create
                {| model := "gpt-3.5-turbo";
                   content := instructions_prompt command;
                   temperature := 3 # 10;
                   max_tokens := 500;
                   n := 1 |} ;;
  txt <- lift (message_text response) ;;
  parsed <- try_JSON_parse txt ;;
  match parsed with
  | Some v => ret v
  | None =>
      console LError
        [text "Failed to parse instructions. Response text:"; text txt] ;;
      throw (Error "Invalid JSON from LLM")
  end.

(** The prompt of [refineUICode], from the code and the text of the
    instruction. *)
Definition refine_prompt (currentCode : string)
    (instruction : string) : string :=
  "You are an expert UI developer. You are given the following UI code:"
    +:+ nl +:+ nl +:+ currentCode +:+ nl +:+ nl
    +:+ "Improve the code based on the following instruction: "
    +:+ quoted instruction +:+ ". "
    +:+ "Return only the updated code.".

(** The instruction is declared a string and arrives as whatever the step
    carried; the template literal converts it. *)
Definition refineUICode (currentCode : string)
    (refinementInstructions : JsValue) : M string :=
  instruction <- ToString refinementInstructions ;;
  response <- chat_completions_create
                {| model := "gpt-3.5-turbo";
                   content := refine_prompt currentCode instruction;
                   temperature := 4 # 10;
                   max_tokens := 800;
                   n := 1 |} ;;
  lift (message_text response).

(** [const { action, details } = step]. *)
Definition destructure (step : JsValue) : M (JsValue * JsValue) :=
  match get_prop step "action", get_prop step "details" with
  | Some action, Some details => ret (action, details)
  | _, _ => throw (TypeError ("Cannot destructure property 'action' of 'step' as it is "
                              +:+ nullish_name step +:+ "."))
  end.

(** [typeof details === "object" && details.selector && details.text]. *)
Definition type_details_ok (details : JsValue) : M bool :=
  if typeof_is_object details then
    selector <- read details "selector" ;;
    if truthy selector then
      txt <- read details "text" ;;
      ret (truthy txt)
    else ret false
  else ret false.

(** [typeof details === "object" && details.refinement]. *)
Definition refine_details_ok (details : JsValue) : M bool :=
  if typeof_is_object details then
    refinement <- read details "refinement" ;;
    ret (truthy refinement)
  else ret false.

Definition extracted_name : string := "extracted_ui.html".

(** [`refined_ui_iteration_${iterationCount}.html`]; the counter counts
    steps of one list and stays within the safe integers. *)
Definition refined_name (iterationCount : nat) : string :=
  "refined_ui_iteration_" +:+ number_to_string (Z.of_nat iterationCount)
    +:+ ".html".

(** [parseInt(details)] in the program. *)
Definition call_parseInt (v : JsValue) : M JsNum :=
  match parseInt v with
  | Some duration => ret duration
  | None => throw not_convertible
  end.

(** [`${duration}`] for a number the program has computed. *)
Definition number_text (duration : JsNum) : M string :=
  fun env m =>
    (m, Ok match duration with
           | NaN => "NaN"
           | Num z => number_to_string z
           | Rounded z => rounded_text env z
           end).

(** The body of the [for] loop of [runBrowserAgent]. *)
Definition exec_step (step : JsValue) : M unit :=
  '(action, details) <- destructure step ;;
  if is_action action "navigate" then
    shown <- ToString details ;;
    console LLog [text ("Navigating to " +:+ shown)] ;;
    await (Goto details) ;;
    await (WaitForTimeout (Num 2000))
  else if is_action action "type" then
    ok <- type_details_ok details ;;
    if ok then
      txt <- read details "text" ;;
      shown_text <- ToString txt ;;
      selector <- read details "selector" ;;
      shown_selector <- ToString selector ;;
      console LLog [text ("Typing " +:+ quoted shown_text
                          +:+ " into element with selector "
                          +:+ shown_selector)] ;;
      await (Fill selector txt) ;;
      await (WaitForTimeout (Num 1000))
    else
      console LWarn [text "Invalid details for type action:"; CVal details]
  else if is_action action "click" then
    shown <- ToString details ;;
    console LLog [text ("Clicking element with selector "
                        +:+ quoted shown)] ;;
    await (Click details 10000) ;;
    await (WaitForTimeout (Num 2000))
  else if is_action action "wait" then
    duration <- call_parseInt details ;;
    shown <- number_text duration ;;
    console LLog [text ("Waiting for " +:+ shown +:+ " ms")] ;;
    await (WaitForTimeout duration)
  else if is_action action "extractCode" then
    shown <- ToString details ;;
    console LLog [text ("Extracting UI code from element with selector "
                        +:+ quoted shown)] ;;
    await (WaitForSelector details 10000) ;;
    html <- element_innerHTML ;;
    st <- get_vars ;;
    set_vars {| currentUIcode := html;
                iterationCount := iterationCount st |} ;;
    fs_writeFileSync extracted_name html ;;
    console LLog [text "Extracted UI code saved as extracted_ui.html"]
  else if is_action action "refineCode" then
    st <- get_vars ;;
    if str_nonempty (currentUIcode st) then
      ok <- refine_details_ok details ;;
      if ok then
        refinement <- read details "refinement" ;;
        shown <- ToString refinement ;;
        console LLog [text ("Refining UI code with instruction: "
                            +:+ quoted shown)] ;;
        refinedCode <- refineUICode (currentUIcode st) refinement ;;
        let count := S (iterationCount st) in
        set_vars {| currentUIcode := refinedCode; iterationCount := count |} ;;
        let filename := refined_name count in
        fs_writeFileSync filename refinedCode ;;
        console LLog [text ("Refined UI code saved as " +:+ filename)]
      else
        console LWarn
          [text "Invalid details for refineCode action:"; CVal details]
    else
      console LWarn
        [text "No UI code available to refine. Use extractCode first."]
  else
    console LWarn [text "Unknown action:"; CVal action].

(** [for (const step of instructions) { ... }], over the elements the
    iteration yields. *)
Fixpoint run_steps (steps : list JsValue) : M unit :=
  match steps with
  | [] => ret tt
  | step :: rest => exec_step step ;; run_steps rest
  end.

Fixpoint chars (s : string) : list JsValue :=
  match s with
  | EmptyString => []
  | String c rest => JStr (String c EmptyString) :: chars rest
  end.

(** What [for ... of] iterates over: the elements of an array, the
    characters of a string; other values are not iterable. *)
Definition iterate (v : JsValue) : M (list JsValue) :=
  match v with
  | JArr items => ret items
  | JStr s => ret (chars s)
  | _ => throw (TypeError "instructions is not iterable")
  end.

Definition initial_vars : RunState :=
  {| currentUIcode := ""; iterationCount := 0 |}.

Definition runBrowserAgent (command : string) : M unit :=
  console LLog [text "Processing command:"; text command] ;;
  instructions <- generateInstructions command ;;
  console LLog [text "Generated Instructions:"; CVal instructions] ;;
  await (Launch false) ;;
  await NewContext ;;
  await NewPage ;;
  set_vars initial_vars ;;
  steps <- iterate instructions ;;
  run_steps steps ;;
  await (Screenshot "final_ui.png") ;;
  console LLog [text "Final UI screenshot saved as final_ui.png"] ;;
  st <- get_vars ;;
  if str_nonempty (currentUIcode st) then
    console LLog [text ("Final refined UI code:" +:+ nl);
                  text (currentUIcode st)]
  else ret tt.

Definition default_command : string :=
  "On Vercel V0, build an initial landing page UI, extract the UI code, then iteratively improve it to look more modern and responsive by refining the code multiple times.".

(** [process.argv[2] || "On Vercel V0, ..."]. *)
Definition userCommand (argv2 : option string) : string :=
  match argv2 with
  | Some s => if str_nonempty s then s else default_command
  | None => default_command
  end.

(** The statement at the top level of the module:
    [runBrowserAgent(userCommand).catch((error) => console.error(...))]. *)
Definition main (argv2 : option string) : M unit :=
  promise_catch (runBrowserAgent (userCommand argv2))
    (fun error =>
       console LError [text "Error running browser agent:"; CExn error]).

Definition boot : Machine :=
  {| vars := initial_vars; trace := []; files := ∅ |}.

End Agent.

(* ===================================================================== *)
(** ** Vocabulary of the properties *)
(* ===================================================================== *)

Module Spec.
Import Agent.
Local Open Scope agent_scope.

(** The two properties the loop body reads from a step; [undefined] when
    the step has none. *)
Definition prop (v : JsValue) (k : string) : JsValue :=
  default JUndefined (get_prop v k).

Definition action_of (step : JsValue) : JsValue := prop step "action".
Definition details_of (step : JsValue) : JsValue := prop step "details".

Definition has_action (name : string) (step : JsValue) : bool :=
  is_action (action_of step) name.

(** A step object, and the response object of a chat completion whose
    first choice carries [content]. *)
Definition mk_step (action : string) (details : JsValue) : JsValue :=
  JObj [("action", JStr action); ("details", details)].

Definition completion (content : JsValue) : JsValue :=
  JObj [("choices",
         JArr [JObj [("index", JNum "0");
                     ("message", JObj [("role", JStr "assistant");
                                       ("content", content)])]])].

(** The value converts to a string; [rendered] is then the string. *)
Definition printable (v : JsValue) : bool :=
  match to_string v with
  | Some _ => true
  | None => false
  end.

Definition rendered (v : JsValue) : string :=
  default EmptyString (to_string v).

(** The request [refineUICode] sends for a given code and a printable
    instruction. *)
Definition refine_request (code : string) (refinement : JsValue)
  : ChatRequest :=
  {| model := "gpt-3.5-turbo";
     content := refine_prompt code (rendered refinement);
     temperature := 4 # 10;
     max_tokens := 800;
     n := 1 |}.

(** The console lines of the loop body that the statements mention, for
    printable details. *)
Definition warn_no_code : Event :=
  Console LWarn
    [text "No UI code available to refine. Use extractCode first."].

Definition log_click (details : JsValue) : Event :=
  Console LLog [text ("Clicking element with selector "
                      +:+ quoted (rendered details))].

Definition log_wait_nan : Event :=
  Console LLog [text "Waiting for NaN ms"].

Definition log_refining (refinement : JsValue) : Event :=
  Console LLog [text ("Refining UI code with instruction: "
                      +:+ quoted (rendered refinement))].

Definition log_refined (count : nat) : Event :=
  Console LLog [text ("Refined UI code saved as " +:+ refined_name count)].

Definition log_extracting (details : JsValue) : Event :=
  Console LLog [text ("Extracting UI code from element with selector "
                      +:+ quoted (rendered details))].

Definition log_extracted : Event :=
  Console LLog [text "Extracted UI code saved as extracted_ui.html"].

Definition is_string (v : JsValue) : bool :=
  match v with JStr _ => true | _ => false end.

Definition is_record (v : JsValue) : bool :=
  match v with JObj _ => true | _ => false end.

(** A string that is not empty. *)
Definition is_text (v : JsValue) : bool :=
  match v with
  | JStr s => str_nonempty s
  | _ => false
  end.

(** A step is well-formed when its action is one of the six and its
    details have the shape the table of the actions gives for it: a string
    for navigate, click and extractCode, a number or numeric string for
    wait, an object whose [selector] and [text] are non-empty strings for
    type, an object whose [refinement] is a non-empty string for
    refineCode. *)
Definition well_formed (step : JsValue) : bool :=
  let d := details_of step in
  if has_action "navigate" step then is_string d
  else if has_action "type" step then
    is_record d && is_text (prop d "selector") && is_text (prop d "text")
  else if has_action "click" step then is_string d
  else if has_action "wait" step then
    match d, parseInt d with
    | (JNum _ | JStr _), Some (Num _ | Rounded _) => true
    | _, _ => false
    end
  else if has_action "extractCode" step then is_string d
  else if has_action "refineCode" step then
    is_record d && is_text (prop d "refinement")
  else false.

Fixpoint count_refine (steps : list JsValue) : nat :=
  match steps with
  | [] => 0
  | step :: rest =>
      (if has_action "refineCode" step then 1 else 0) + count_refine rest
  end%nat.

(** Every [refineCode] step has an [extractCode] step before it; [seen]
    tells whether one lies before the list. *)
Fixpoint extract_precedes_refine (seen : bool) (steps : list JsValue)
  : bool :=
  match steps with
  | [] => true
  | step :: rest =>
      if has_action "refineCode" step
      then seen && extract_precedes_refine seen rest
      else extract_precedes_refine (seen || has_action "extractCode" step)
             rest
  end.

(** The step is neither an [extractCode] nor a [refineCode] step. *)
Definition other_action (step : JsValue) : Prop :=
  has_action "extractCode" step = false /\
  has_action "refineCode" step = false.

Definition no_extract (steps : list JsValue) : Prop :=
  Forall (fun step => has_action "extractCode" step = false) steps.

(** No call to the browser fails. *)
Definition browser_never_fails (env : Env) : Prop :=
  forall tr, settles env tr = None /\ exists html, inner_html env tr = Ok html.

(** No call fails at all, and neither an extraction nor a refinement ever
    comes back empty. *)
Record cooperative (env : Env) : Prop := {
  coop_settles : forall tr, settles env tr = None;
  coop_html : forall tr, exists html,
      inner_html env tr = Ok html /\ html <> "";
  coop_reply : forall tr, exists response code,
      chat_response env tr = Ok response /\
      message_text response = Ok code /\ code <> ""
}.

(** The names of the files a trace writes, in order. *)
Fixpoint written (tr : Trace) : list string :=
  match tr with
  | [] => []
  | WriteFile name _ :: rest => name :: written rest
  | _ :: rest => written rest
  end.

(** The string under [choices[0].message.content] of a response, when the
    response has that structure. *)
Definition reply_content (response : JsValue) : option string :=
  match get_index0 (prop response "choices") with
  | Some choice =>
      match prop (prop choice "message") "content" with
      | JStr s => Some s
      | _ => None
      end
  | None => None
  end.

(** The response, its first choice, the message or its content is [null]
    or absent, the [choices] being there to index. *)
Definition content_absent (response : JsValue) : bool :=
  nullish response
  || match get_index0 (prop response "choices") with
     | Some choice =>
         nullish choice || nullish (prop choice "message")
         || nullish (prop (prop choice "message") "content")
     | None => false
     end.

(** Exit status of the process, as the runtime sets it for a program that
    neither assigns [process.exitCode] nor calls [process.exit]: 0 when the
    promise chain of the top level is fulfilled, 1 when a rejection is left
    unhandled. *)
Definition exit_status (r : Result unit) : Z :=
  match r with
  | Ok _ => 0
  | Threw _ => 1
  end.

Definition run_exit_status (argv2 : option string) (env : Env) : Z :=
  exit_status (snd (main argv2 env boot)).

(** *** What a step does to the artifacts *)

Definition untouched (m m' : Machine) : Prop :=
  vars m' = vars m /\ files m' = files m /\
  written (trace m') = written (trace m).

(** One write of the current code under [name] was attempted; the file is
    there when the step returned. *)
Definition wrote (name : string) (m m' : Machine) (r : Result unit) : Prop :=
  written (trace m') = written (trace m) ++ [name] /\
  files m' = match r with
             | Ok _ => <[name := currentUIcode (vars m')]> (files m)
             | Threw _ => files m
             end.

Definition step_effect (step : JsValue) (m m' : Machine) (r : Result unit)
  : Prop :=
  untouched m m'
  \/ (has_action "extractCode" step = true /\
      iterationCount (vars m') = iterationCount (vars m) /\
      wrote extracted_name m m' r)
  \/ (has_action "refineCode" step = true /\
      iterationCount (vars m') = S (iterationCount (vars m)) /\
      wrote (refined_name (S (iterationCount (vars m)))) m m' r).

(** [name] is the file of one of the iterations 1 .. [count]. *)
Definition iteration_name (count : nat) (name : string) : Prop :=
  exists k, (1 <= k <= count)%nat /\ name = refined_name k.

Definition artifact_name (count : nat) (name : string) : Prop :=
  name = extracted_name \/ iteration_name count name.

(** Every file written so far is the extraction file or the file of an
    iteration counted so far. *)
Definition artifacts_within (m : Machine) : Prop :=
  (forall name, name ∈ written (trace m) ->
                artifact_name (iterationCount (vars m)) name) /\
  (forall name, is_Some (files m !! name) ->
                artifact_name (iterationCount (vars m)) name).

(** The machine when the loop is entered: the variables have their
    initial values and no file has been written. *)
Definition at_loop_start (m : Machine) : Prop :=
  vars m = initial_vars /\ written (trace m) = [] /\ files m = ∅.

(** The [refineCode] step [step], met in [m], goes through and yields
    [refined]: there is code to refine, the details carry a refinement that
    is truthy and converts to a string, the provider answers [refined], and
    the file is written. *)
Definition refine_succeeds (env : Env) (m : Machine) (step : JsValue)
    (refined : string) : Prop :=
  let refinement := prop (details_of step) "refinement" in
  let tr := trace m ++ [log_refining refinement;
                        ChatCreate (refine_request (currentUIcode (vars m))
                                      refinement)] in
  has_action "refineCode" step = true /\
  currentUIcode (vars m) <> "" /\
  truthy refinement = true /\
  printable refinement = true /\
  (exists response, chat_response env tr = Ok response /\
                    message_text response = Ok refined) /\
  settles env (tr ++ [WriteFile (refined_name (S (iterationCount (vars m))))
                        refined]) = None.

(** The machine a successful refinement leaves. *)
Definition refined_machine (m : Machine) (step : JsValue) (refined : string)
  : Machine :=
  let refinement := prop (details_of step) "refinement" in
  let count := S (iterationCount (vars m)) in
  record (log_refined count)
    (store (refined_name count) refined
       (record (WriteFile (refined_name count) refined)
          (with_vars {| currentUIcode := refined; iterationCount := count |}
             (record (ChatCreate (refine_request (currentUIcode (vars m))
                                    refinement))
                (record (log_refining refinement) m))))).

(** *** The statements that the code does not bear out, as they are worded *)

(** C1 as worded: well-formed steps, an extraction before every refinement
    and a browser that never fails give a run that returns, with as many
    iterations as [refineCode] steps. *)
Definition counts_every_refine (env : Env) (steps : list JsValue) : Prop :=
  Forall (fun step => well_formed step = true) steps ->
  extract_precedes_refine false steps = true ->
  browser_never_fails env ->
  snd (run_steps steps env boot) = Ok tt /\
  iterationCount (vars (fst (run_steps steps env boot))) = count_refine steps.

(** C5 as worded: after an [extractCode] step, a [refineCode] step with
    refinement [R] sends the provider the request for the extracted code
    and [R]. *)
Definition provider_always_called (env : Env) (m : Machine)
    (extract refine : JsValue) : Prop :=
  has_action "extractCode" extract = true ->
  has_action "refineCode" refine = true ->
  forall m1, exec_step extract env m = (m1, Ok tt) ->
  In (ChatCreate (refine_request (currentUIcode (vars m1))
                    (prop (details_of refine) "refinement")))
     (trace (fst (exec_step refine env m1))).

(** C6 as worded: when the provider's reply has no content string, a
    [refineCode] step changes neither variable and returns. *)
Definition format_error_is_noop (env : Env) (m : Machine) (step : JsValue)
  : Prop :=
  has_action "refineCode" step = true ->
  (forall tr, exists response,
      chat_response env tr = Ok response /\ reply_content response = None) ->
  vars (fst (exec_step step env m)) = vars m /\
  snd (exec_step step env m) = Ok tt.

(** C7 as worded, for the extraction file: at the end of the run it holds
    the code of the first extraction. *)
Definition keeps_first_extraction (env : Env) (steps : list JsValue) : Prop :=
  forall pre step post m1,
    steps = pre ++ step :: post ->
    no_extract pre ->
    has_action "extractCode" step = true ->
    run_steps (pre ++ [step]) env boot = (m1, Ok tt) ->
    files (fst (run_steps steps env boot)) !! extracted_name
      = Some (currentUIcode (vars m1)).

(** C8 as worded: with collaborators that never fail, a [wait] step whose
    details are not read as a number raises nothing, leaves the variables
    alone and returns. *)
Definition wait_degrades_silently (env : Env) (m : Machine) (step : JsValue)
  : Prop :=
  has_action "wait" step = true ->
  (forall tr, settles env tr = None) ->
  match parseInt (details_of step) with
  | Some (Num _) | Some (Rounded _) => True
  | Some NaN | None =>
      snd (exec_step step env m) = Ok tt /\
      vars (fst (exec_step step env m)) = vars m
  end.

(** C9 as worded: status 0 when the run completes, another status when it
    fails. *)
Definition exit_status_reports_failure (argv2 : option string) (env : Env)
  : Prop :=
  (snd (runBrowserAgent (userCommand argv2) env boot) = Ok tt ->
   run_exit_status argv2 env = 0) /\
  (forall e, snd (runBrowserAgent (userCommand argv2) env boot) = Threw e ->
             run_exit_status argv2 env <> 0).

End Spec.

(* ===================================================================== *)
(** ** Scenarios: concrete collaborators and step lists *)
(* ===================================================================== *)

Module Scenarios.
Import Agent Spec.

Definition refine_with (instruction : string) : JsValue :=
  mk_step "refineCode" (JObj [("refinement", JStr instruction)]).

(** No numeral beyond the safe integers occurs in the scenarios, so their
    platform is never asked for the text of a rounded number. *)
Definition no_rounding : Z -> string := fun _ => "Infinity".

(** The JSON text of a value built from strings without escapes, numbers,
    arrays and objects. *)
Fixpoint stringify (v : JsValue) : string :=
  match v with
  | JUndefined | JNull => "null"
  | JBool true => "true"
  | JBool false => "false"
  | JNum rendering => rendering
  | JStr s => quoted s
  | JArr items =>
      "[" +:+ (fix join (l : list JsValue) : string :=
                 match l with
                 | [] => ""
                 | [x] => stringify x
                 | x :: rest => stringify x +:+ "," +:+ join rest
                 end) items +:+ "]"
  | JObj props =>
      "{" +:+ (fix join (l : list (string * JsValue)) : string :=
                 match l with
                 | [] => ""
                 | [(k, x)] => quoted k +:+ ":" +:+ stringify x
                 | (k, x) :: rest =>
                     quoted k +:+ ":" +:+ stringify x +:+ "," +:+ join rest
                 end) props +:+ "}"
  end.

(** [JSON.parse] on the one text a scenario needs: the text of [v] parses
    to [v]; no other text is asked for. *)
Definition parses_to (v : JsValue) (txt : string) : option JsValue :=
  if String.eqb txt (stringify v) then Some v else None.

(** The scenario of the specification. *)
Definition plan : list JsValue :=
  [mk_step "navigate" (JStr "https://x");
   mk_step "wait" (JNum "2000");
   mk_step "extractCode" (JStr ".ui");
   refine_with "make responsive"].

(** A page that always has the element, a provider that answers with
    [reply], and nothing that fails. *)
Definition env_with (html : string) (reply : JsValue) : Env :=
  {| settles := fun _ => None;
     chat_response := fun _ => Ok reply;
     inner_html := fun _ => Ok html;
     JSON_parse := parses_to (JArr plan);
     rounded_text := no_rounding |}.

Definition env_plain : Env :=
  env_with "<div>UI</div>" (completion (JStr "<div class='r'>UI</div>")).

(** A whole session: the model answers the instruction request (the one
    with 500 tokens) with the JSON text of [plan], and a refinement request
    with refined code. *)
Definition env_session : Env :=
  {| settles := fun _ => None;
     chat_response := fun tr =>
       match last tr with
       | Some (ChatCreate req) =>
           if (max_tokens req =? 500)%Z
           then Ok (completion (JStr (stringify (JArr plan))))
           else Ok (completion (JStr "<div class='r'>UI</div>"))
       | _ => Threw (External "no request")
       end;
     inner_html := fun _ => Ok "<div>UI</div>";
     JSON_parse := parses_to (JArr plan);
     rounded_text := no_rounding |}.

(** The provider answers with an empty string. *)
Definition env_empty_reply : Env :=
  env_with "<div>UI</div>" (completion (JStr "")).

(** The provider answers with a message without content. *)
Definition env_null_content : Env :=
  env_with "<div>UI</div>" (completion JNull).

(** The element is there and has no markup inside. *)
Definition env_empty_page : Env :=
  env_with "" (completion (JStr "<div class='r'>UI</div>")).

Definition click_plan : list JsValue :=
  [mk_step "click" (JStr "text=Sign in");
   mk_step "extractCode" (JStr ".ui")].

(** The model answers with the JSON text of [click_plan]; no element ever
    becomes actionable, so every click times out. *)
Definition env_click_timeout : Env :=
  {| settles := fun tr =>
       match last tr with
       | Some (Click _ _) =>
           Some (External "locator.click: Timeout 10000ms exceeded.")
       | _ => None
       end;
     chat_response := fun _ =>
       Ok (completion (JStr (stringify (JArr click_plan))));
     inner_html := fun _ => Ok "<div>UI</div>";
     JSON_parse := parses_to (JArr click_plan);
     rounded_text := no_rounding |}.

Fixpoint count_inner_html (tr : Trace) : nat :=
  match tr with
  | [] => 0
  | InnerHTML :: rest => S (count_inner_html rest)
  | _ :: rest => count_inner_html rest
  end.

(** The page changes between two extractions. *)
Definition env_two_pages : Env :=
  {| settles := fun _ => None;
     chat_response := fun _ => Ok (completion (JStr "<div class='r'>UI</div>"));
     inner_html := fun tr =>
       match count_inner_html tr with
       | 1%nat => Ok "<p>first</p>"
       | _ => Ok "<p>second</p>"
       end;
     JSON_parse := parses_to (JArr plan);
     rounded_text := no_rounding |}.

(** The machine after one extraction from the start. *)
Definition after_extraction (env : Env) : Machine :=
  fst (exec_step (mk_step "extractCode" (JStr ".ui")) env boot).

Definition two_extractions : list JsValue :=
  [mk_step "extractCode" (JStr ".ui"); mk_step "extractCode" (JStr ".ui")].

Definition extract_refine_twice : list JsValue :=
  [mk_step "extractCode" (JStr ".ui");
   refine_with "Add responsive design using CSS media queries.";
   refine_with "Optimize layout for better user experience."].

End Scenarios.

(* ===================================================================== *)
(** ** The earlier loop *)
(* ===================================================================== *)

(** The loop of [runBrowserAgent] in [src/index.ts], which knows the
    actions navigate and type only and has no branch for the others. *)
Module Legacy.
Import Agent.
Local Open Scope agent_scope.

Definition exec_step (step : JsValue) : M unit :=
  '(action, details) <- destructure step ;;
  if is_action action "navigate" then
    shown <- ToString details ;;
    console LLog [text ("Navigating to " +:+ shown)] ;;
    await (Goto details) ;;
    await (WaitForTimeout (Num 2000))
  else if is_action action "type" then
    ok <- type_details_ok details ;;
    if ok then
      txt <- read details "text" ;;
      shown_text <- ToString txt ;;
      selector <- read details "selector" ;;
      shown_selector <- ToString selector ;;
      console LLog [text ("Typing " +:+ quoted shown_text
                          +:+ " into element with selector "
                          +:+ shown_selector)] ;;
      await (Fill selector txt) ;;
      await (WaitForTimeout (Num 1000))
    else
      console LWarn [text "Invalid details for type action:"; CVal details]
  else ret tt.

Fixpoint run_steps (steps : list JsValue) : M unit :=
  match steps with
  | [] => ret tt
  | step :: rest => exec_step step ;; run_steps rest
  end.

End Legacy.

(* ===================================================================== *)
(** ** Vocabulary of the branches and of the driver *)
(* ===================================================================== *)

Module Branches.
Import Agent Spec.

(** The request [generateInstructions] sends for a command. *)
Definition instructions_request (command : string) : ChatRequest :=
  {| model := "gpt-3.5-turbo";
     content := instructions_prompt command;
     temperature := 3 # 10;
     max_tokens := 500;
     n := 1 |}.

Definition invalid_json : Exn := Error "Invalid JSON from LLM".

Definition not_iterable : Exn := TypeError "instructions is not iterable".

(** Console lines of the driver and of the branches. *)
Definition log_processing (command : string) : Event :=
  Console LLog [text "Processing command:"; text command].

Definition log_generated (instructions : JsValue) : Event :=
  Console LLog [text "Generated Instructions:"; CVal instructions].

Definition log_parse_failure (txt : string) : Event :=
  Console LError
    [text "Failed to parse instructions. Response text:"; text txt].

Definition log_screenshot : Event :=
  Console LLog [text "Final UI screenshot saved as final_ui.png"].

Definition log_final (code : string) : Event :=
  Console LLog [text ("Final refined UI code:" +:+ nl); text code].

Definition log_typing (txt selector : JsValue) : Event :=
  Console LLog [text ("Typing " +:+ quoted (rendered txt)
                      +:+ " into element with selector "
                      +:+ rendered selector)].

Definition log_navigating (details : JsValue) : Event :=
  Console LLog [text ("Navigating to " +:+ rendered details)].

Definition log_waiting (z : Z) : Event :=
  Console LLog [text ("Waiting for " +:+ number_to_string z +:+ " ms")].

Definition warn_type_details (details : JsValue) : Event :=
  Console LWarn [text "Invalid details for type action:"; CVal details].

Definition warn_refine_details (details : JsValue) : Event :=
  Console LWarn [text "Invalid details for refineCode action:"; CVal details].

Definition warn_unknown (action : JsValue) : Event :=
  Console LWarn [text "Unknown action:"; CVal action].

(** The action of the step is one of the six the loop has a branch for. *)
Definition known_action (step : JsValue) : bool :=
  has_action "navigate" step || has_action "type" step
  || has_action "click" step || has_action "wait" step
  || has_action "extractCode" step || has_action "refineCode" step.

(** The calls that go to the browser. *)
Definition is_browser_event (ev : Event) : bool :=
  match ev with
  | Launch _ | NewContext | NewPage | Goto _ | WaitForTimeout _ | Fill _ _
  | Click _ _ | WaitForSelector _ _ | InnerHTML | Screenshot _ => true
  | Console _ _ | ChatCreate _ | WriteFile _ _ => false
  end.

(** What [for ... of] accepts. *)
Definition iterable (v : JsValue) : bool :=
  match v with
  | JArr _ | JStr _ => true
  | _ => false
  end.

(** The steps the loop runs for iterable instructions. *)
Definition elements (v : JsValue) : list JsValue :=
  match v with
  | JArr items => items
  | JStr s => chars s
  | _ => []
  end.

(** The machine at the end of a completed run: the screenshot is taken and
    reported, and the code is shown when there is some. *)
Definition finished (m : Machine) : Machine :=
  let m' := record log_screenshot (record (Screenshot "final_ui.png") m) in
  if str_nonempty (currentUIcode (vars m))
  then record (log_final (currentUIcode (vars m))) m'
  else m'.

(** The machine once the browser, the context and the page are there and
    the two variables are declared. *)
Definition opened (m : Machine) : Machine :=
  with_vars initial_vars
    (record NewPage (record NewContext (record (Launch false) m))).

(** The three calls that open the browser succeed. *)
Definition browser_opens (env : Env) (m : Machine) : Prop :=
  settles env (trace m ++ [Launch false]) = None /\
  settles env (trace m ++ [Launch false; NewContext]) = None /\
  settles env (trace m ++ [Launch false; NewContext; NewPage]) = None.

(** [runBrowserAgent] gets as far as the loop: the instructions arrive as
    [instructions], leaving [m1], and the browser opens. *)
Definition reaches_loop (env : Env) (command : string) (m m1 : Machine)
    (instructions : JsValue) : Prop :=
  generateInstructions command env (record (log_processing command) m)
    = (m1, Ok instructions) /\
  browser_opens env (record (log_generated instructions) m1).

Definition loop_entry (m1 : Machine) (instructions : JsValue) : Machine :=
  opened (record (log_generated instructions) m1).

Definition first_char (s : string) : option ascii :=
  match s with
  | EmptyString => None
  | String c _ => Some c
  end.

Fixpoint last_char (s : string) : option ascii :=
  match s with
  | EmptyString => None
  | String c EmptyString => Some c
  | String _ rest => last_char rest
  end.

(** Neither the first nor the last character is white space. *)
Definition clean_edges (s : string) : Prop :=
  forall c, first_char s = Some c \/ last_char s = Some c ->
            is_white_space c = false.

(** The number a decimal numeral denotes, most significant digit first,
    continuing from [acc]. *)
Fixpoint digits_value (d : Decimal.uint) (acc : Z) : Z :=
  match d with
  | Decimal.Nil => acc
  | Decimal.D0 d => digits_value d (10 * acc)
  | Decimal.D1 d => digits_value d (10 * acc + 1)
  | Decimal.D2 d => digits_value d (10 * acc + 2)
  | Decimal.D3 d => digits_value d (10 * acc + 3)
  | Decimal.D4 d => digits_value d (10 * acc + 4)
  | Decimal.D5 d => digits_value d (10 * acc + 5)
  | Decimal.D6 d => digits_value d (10 * acc + 6)
  | Decimal.D7 d => digits_value d (10 * acc + 7)
  | Decimal.D8 d => digits_value d (10 * acc + 8)
  | Decimal.D9 d => digits_value d (10 * acc + 9)
  end.


(** The provider answers with an object that has no [choices]. *)
Definition env_bare_reply : Env :=
  Scenarios.env_with "<div>UI</div>" (JObj [("error", JStr "overloaded")]).

(** The model answers the instruction request with [reply], and [parsed]
    is the one value whose JSON text parses. *)
Definition env_answering (reply : string) (parsed : JsValue) : Env :=
  {| settles := fun _ => None;
     chat_response := fun _ => Ok (completion (JStr reply));
     inner_html := fun _ => Ok "<div>UI</div>";
     JSON_parse := Scenarios.parses_to parsed;
     rounded_text := Scenarios.no_rounding |}.

(** The model answers in prose. *)
Definition env_prose : Env :=
  env_answering "Sure! Here are the steps." (JArr Scenarios.plan).

(** The model wraps the steps in an object. *)
Definition wrapped_plan : JsValue := JObj [("steps", JArr Scenarios.plan)].

Definition env_wrapped : Env :=
  env_answering (Scenarios.stringify wrapped_plan) wrapped_plan.

End Branches.

(* ===================================================================== *)
(** ** Properties *)
(* ===================================================================== *)

Import Js Agent Spec Scenarios.
Local Open Scope agent_scope.

(** *** The built-ins on examples *)

Example parseInt_number : parseInt (JNum "2000") = Some (Num 2000).
Proof. reflexivity. Qed.

Example parseInt_prefix : parseInt (JStr " 12px") = Some (Num 12).
Proof. reflexivity. Qed.

Example parseInt_hex : parseInt (JStr "0x1f") = Some (Num 31).
Proof. reflexivity. Qed.

Example parseInt_word : parseInt (JStr "soon") = Some NaN.
Proof. reflexivity. Qed.

Example parseInt_array :
  parseInt (JArr [JNum "7"; JNum "8"]) = Some (Num 7).
Proof. reflexivity. Qed.

Example parseInt_fraction : parseInt (JNum "2000.5") = Some (Num 2000).
Proof. reflexivity. Qed.

Example parseInt_exponent : parseInt (JNum "1e+21") = Some (Num 1).
Proof. reflexivity. Qed.

Example parseInt_beyond_safe :
  parseInt (JStr "9007199254740993") = Some (Rounded 9007199254740993).
Proof. reflexivity. Qed.

Example parseInt_own_toString :
  parseInt (JObj [("toString", JNum "1")]) = None.
Proof. reflexivity. Qed.

Example to_string_plain_object :
  to_string (JObj [("selector", JStr "#chat")]) = Some "[object Object]".
Proof. reflexivity. Qed.

Example to_string_nested_own_toString :
  to_string (JArr [JStr "a"; JObj [("toString", JNull)]]) = None.
Proof. reflexivity. Qed.

Example to_string_array :
  to_string (JArr [JNum "1"; JNull; JArr [JStr "b"; JBool true]])
  = Some "1,,b,true".
Proof. reflexivity. Qed.

Example trim_both_ends : trim "  a b
 " = "a b".
Proof. reflexivity. Qed.

Example message_text_null_choices :
  message_text (JObj [("choices", JNull)])
  = Threw (TypeError "Cannot read properties of null (reading '0')").
Proof. reflexivity. Qed.

Example wait_exponent_is_one_ms :
  exec_step (mk_step "wait" (JNum "1e+21")) env_plain boot
  = (record (WaitForTimeout (Num 1))
       (record (Console LLog [text "Waiting for 1 ms"]) boot), Ok tt).
Proof. reflexivity. Qed.

Example navigate_own_toString_throws :
  exec_step (mk_step "navigate" (JObj [("toString", JNum "1")])) env_plain boot
  = (boot, Threw (TypeError "Cannot convert object to primitive value")).
Proof. reflexivity. Qed.

Example type_own_toString_throws :
  exec_step (mk_step "type" (JObj [("selector", JStr "#q");
                                   ("text", JObj [("toString", JNull)])]))
    env_plain boot
  = (boot, Threw (TypeError "Cannot convert object to primitive value")).
Proof. reflexivity. Qed.

Example refined_name_12 : refined_name 12 = "refined_ui_iteration_12.html".
Proof. reflexivity. Qed.

(** The scenario of the specification: one extraction, one refinement. *)
Example stringify_click_plan :
  stringify (JArr click_plan)
  = "[{" +:+ quoted "action" +:+ ":" +:+ quoted "click" +:+ ","
    +:+ quoted "details" +:+ ":" +:+ quoted "text=Sign in" +:+ "},{"
    +:+ quoted "action" +:+ ":" +:+ quoted "extractCode" +:+ ","
    +:+ quoted "details" +:+ ":" +:+ quoted ".ui" +:+ "}]".
Proof. reflexivity. Qed.

(** A whole session from the command line to the final log line. *)
Example session_completes :
  let m := fst (main None env_session boot) in
  snd (main None env_session boot) = Ok tt /\
  vars m = {| currentUIcode := "<div class='r'>UI</div>";
              iterationCount := 1 |} /\
  written (trace m) = [extracted_name; refined_name 1] /\
  last (trace m)
  = Some (Console LLog [text ("Final refined UI code:" +:+ nl);
                        text "<div class='r'>UI</div>"]).
Proof. repeat split; reflexivity. Qed.

Example scenario_end_state :
  let m := fst (run_steps plan env_plain boot) in
  vars m = {| currentUIcode := "<div class='r'>UI</div>";
              iterationCount := 1 |} /\
  written (trace m) = [extracted_name; refined_name 1].
Proof. split; reflexivity. Qed.

(** *** Running computations *)

Section Running.

Context (env : Env).

Lemma bind_run {A B} (c : M A) (k : A -> M B) (m : Machine) :
  bind c k env m =
  match c env m with
  | (m', Ok a) => k a env m'
  | (m', Threw e) => (m', Threw e)
  end.
Proof. reflexivity. Qed.

Lemma destructure_run (step : JsValue) (m : Machine) :
  destructure step env m =
  match step with
  | JUndefined | JNull =>
      (m, Threw (TypeError
                   ("Cannot destructure property 'action' of 'step' as it is "
                    +:+ nullish_name step +:+ ".")))
  | _ => (m, Ok (action_of step, details_of step))
  end.
Proof. destruct step; reflexivity. Qed.

Lemma run_steps_cons (step : JsValue) (rest : list JsValue) (m : Machine) :
  run_steps (step :: rest) env m =
  match exec_step step env m with
  | (m', Ok _) => run_steps rest env m'
  | (m', Threw e) => (m', Threw e)
  end.
Proof. reflexivity. Qed.

Lemma run_steps_app (pre post : list JsValue) (m : Machine) :
  run_steps (pre ++ post) env m =
  match run_steps pre env m with
  | (m', Ok _) => run_steps post env m'
  | (m', Threw e) => (m', Threw e)
  end.
Proof.
  revert m. induction pre as [|step pre IH]; intros m; [reflexivity|].
  rewrite <- app_comm_cons, !run_steps_cons.
  destruct (exec_step step env m) as [m' [[]|e]]; [apply IH | reflexivity].
Qed.

End Running.

(** Case analysis on the innermost [match] of the goal, and the unfolding
    of the operations of [M]. *)
Ltac inner_case :=
  match goal with
  | |- context [match ?x with _ => _ end] =>
      lazymatch x with
      | context [match _ with _ => _ end] => fail
      | _ => destruct x eqn:?
      end
  end.

Ltac unfold_ops :=
  unfold type_details_ok, refine_details_ok, refineUICode, ToString,
    call_parseInt, number_text, read, bind, await,
    console, ret, throw, lift, get_vars, set_vars, fs_writeFileSync,
    element_innerHTML, chat_completions_create in *;
  unfold log_click, log_wait_nan, log_refining, log_refined, log_extracting,
    log_extracted, warn_no_code, refine_request in *.

Ltac norm := cbv zeta; cbn [vars trace files record with_vars store fst snd].

(** A printable value converts to its rendering. *)
Lemma printable_rendered (v : JsValue) :
  printable v = true -> to_string v = Some (rendered v).
Proof.
  unfold printable, rendered. destruct (to_string v); [reflexivity|discriminate].
Qed.

Lemma unprintable_none (v : JsValue) :
  printable v = false -> to_string v = None.
Proof. unfold printable. destruct (to_string v); [discriminate|reflexivity]. Qed.

Ltac run_cases := unfold_ops; norm; repeat (inner_case; norm); try reflexivity.

(** A step whose action is read as a string has that action. *)
Lemma has_action_not_nullish (name : string) (step : JsValue) :
  has_action name step = true -> nullish step = false.
Proof. destruct step; (discriminate || reflexivity). Qed.

Lemma has_action_unique (a b : string) (step : JsValue) :
  has_action a step = true -> a <> b -> has_action b step = false.
Proof.
  unfold has_action, is_action. destruct (action_of step); try discriminate.
  intros Ha Hne. apply String.eqb_eq in Ha. subst.
  apply String.eqb_neq. congruence.
Qed.

(** The loop body with the action decided: the first line of each lemma
    names the branch, the equation is the branch. *)
Ltac enter_branch step H :=
  unfold exec_step; rewrite bind_run, destructure_run;
  pose proof (has_action_not_nullish _ _ H);
  destruct step; try discriminate;
  repeat match goal with
         | |- context [is_action (action_of ?s) ?name] =>
             change (is_action (action_of s) name) with (has_action name s);
             first [ rewrite H
                   | rewrite (has_action_unique _ name _ H) by discriminate ]
         end.

Lemma exec_refine_no_code env m step :
  has_action "refineCode" step = true ->
  currentUIcode (vars m) = "" ->
  exec_step step env m = (record warn_no_code m, Ok tt).
Proof.
  intros H Hcode. enter_branch step H.
  unfold_ops. rewrite Hcode. reflexivity.
Qed.

Lemma exec_click env m step :
  has_action "click" step = true ->
  printable (details_of step) = true ->
  let d := details_of step in
  let m1 := record (Click d 10000) (record (log_click d) m) in
  exec_step step env m =
  match settles env (trace m1) with
  | Some e => (m1, Threw e)
  | None =>
      let m2 := record (WaitForTimeout (Num 2000)) m1 in
      (m2, match settles env (trace m2) with
           | None => Ok tt
           | Some e => Threw e
           end)
  end.
Proof.
  intros H Hp d m1. enter_branch step H.
  all: subst d m1; unfold_ops; rewrite (printable_rendered _ Hp); run_cases.
Qed.

(** The steps that show their details throw when the details do not
    convert, before any call. *)
Lemma exec_unprintable env m step :
  has_action "navigate" step = true \/ has_action "click" step = true \/
  has_action "extractCode" step = true ->
  printable (details_of step) = false ->
  exec_step step env m = (m, Threw not_convertible).
Proof.
  intros [H | [H | H]] Hp; enter_branch step H.
  all: unfold_ops; rewrite (unprintable_none _ Hp); reflexivity.
Qed.

Lemma exec_wait env m step duration :
  has_action "wait" step = true ->
  parseInt (details_of step) = Some duration ->
  let shown := match duration with
               | NaN => "NaN"
               | Num z => number_to_string z
               | Rounded z => rounded_text env z
               end in
  let m1 := record (WaitForTimeout duration)
              (record (Console LLog [text ("Waiting for " +:+ shown +:+ " ms")])
                 m) in
  exec_step step env m =
  (m1, match settles env (trace m1) with
       | None => Ok tt
       | Some e => Threw e
       end).
Proof.
  intros H Hparse s m1. enter_branch step H.
  all: subst s m1; unfold_ops; rewrite Hparse; run_cases.
Qed.

Lemma exec_wait_unreadable env m step :
  has_action "wait" step = true ->
  parseInt (details_of step) = None ->
  exec_step step env m = (m, Threw not_convertible).
Proof.
  intros H Hparse. enter_branch step H.
  all: unfold_ops; rewrite Hparse; reflexivity.
Qed.

Lemma exec_extract env m step :
  has_action "extractCode" step = true ->
  printable (details_of step) = true ->
  let d := details_of step in
  let m1 := record (WaitForSelector d 10000) (record (log_extracting d) m) in
  exec_step step env m =
  match settles env (trace m1) with
  | Some e => (m1, Threw e)
  | None =>
      let m2 := record InnerHTML m1 in
      match inner_html env (trace m2) with
      | Threw e => (m2, Threw e)
      | Ok html =>
          let st := {| currentUIcode := html;
                       iterationCount := iterationCount (vars m) |} in
          let m3 := record (WriteFile extracted_name html) (with_vars st m2) in
          match settles env (trace m3) with
          | Some e => (m3, Threw e)
          | None =>
              (record log_extracted (store extracted_name html m3), Ok tt)
          end
      end
  end.
Proof.
  intros H Hp d m1. enter_branch step H.
  all: subst d m1; unfold_ops; rewrite (printable_rendered _ Hp); run_cases.
Qed.

Lemma truthy_prop_is_object (d : JsValue) (k : string) :
  truthy (prop d k) = true ->
  typeof_is_object d = true /\ get_prop d k = Some (prop d k).
Proof. destruct d; try discriminate; intros _; split; reflexivity. Qed.

Lemma str_nonempty_true (s : string) : s <> "" -> str_nonempty s = true.
Proof. destruct s; [congruence | reflexivity]. Qed.

Lemma exec_refine env m step :
  has_action "refineCode" step = true ->
  currentUIcode (vars m) <> "" ->
  truthy (prop (details_of step) "refinement") = true ->
  printable (prop (details_of step) "refinement") = true ->
  let refinement := prop (details_of step) "refinement" in
  let m1 := record (ChatCreate (refine_request (currentUIcode (vars m))
                                  refinement))
              (record (log_refining refinement) m) in
  exec_step step env m =
  match chat_response env (trace m1) with
  | Threw e => (m1, Threw e)
  | Ok response =>
      match message_text response with
      | Threw e => (m1, Threw e)
      | Ok refined =>
          let count := S (iterationCount (vars m)) in
          let st := {| currentUIcode := refined; iterationCount := count |} in
          let m2 := record (WriteFile (refined_name count) refined)
                      (with_vars st m1) in
          match settles env (trace m2) with
          | Some e => (m2, Threw e)
          | None =>
              (record (log_refined count)
                 (store (refined_name count) refined m2), Ok tt)
          end
      end
  end.
Proof.
  intros H Hcode Hr Hp R m1.
  destruct (truthy_prop_is_object _ _ Hr) as [Hobj Hget].
  enter_branch step H.
  all: subst R m1; unfold_ops.
  all: rewrite (str_nonempty_true _ Hcode), Hobj, Hget, Hr.
  all: rewrite !(printable_rendered _ Hp).
  all: run_cases.
Qed.

(** A refinement that does not convert to a string stops the step at the
    log line: nothing is sent and nothing changes. *)
Lemma exec_refine_unprintable env m step :
  has_action "refineCode" step = true ->
  currentUIcode (vars m) <> "" ->
  truthy (prop (details_of step) "refinement") = true ->
  printable (prop (details_of step) "refinement") = false ->
  exec_step step env m = (m, Threw not_convertible).
Proof.
  intros H Hcode Hr Hp.
  destruct (truthy_prop_is_object _ _ Hr) as [Hobj Hget].
  enter_branch step H.
  all: unfold_ops.
  all: rewrite (str_nonempty_true _ Hcode), Hobj, Hget, Hr.
  all: rewrite (unprintable_none _ Hp); reflexivity.
Qed.

(** *** Artifact names *)

Lemma length_append (s t : string) :
  String.length (s +:+ t) = (String.length s + String.length t)%nat.
Proof. induction s as [|c s IH]; simpl; [reflexivity | now rewrite IH]. Qed.

Lemma append_inj_suffix (s1 s2 t : string) : s1 +:+ t = s2 +:+ t -> s1 = s2.
Proof.
  revert s2. induction s1 as [|c s1 IH]; intros [|c' s2] H; simpl in H.
  - reflexivity.
  - apply (f_equal String.length) in H.
    change (String.length t = S (String.length (s2 +:+ t))) in H.
    rewrite length_append in H. lia.
  - apply (f_equal String.length) in H.
    change (S (String.length (s1 +:+ t)) = String.length t) in H.
    rewrite length_append in H. lia.
  - injection H as -> H. f_equal. now apply IH.
Qed.

Lemma to_int_proper (z : Z) :
  Z.to_int z <> Decimal.Pos Decimal.Nil /\ Z.to_int z <> Decimal.Neg Decimal.Nil.
Proof.
  destruct z as [|p|p]; simpl; split; try discriminate.
  all: intros [= H]; now apply DecimalPos.Unsigned.to_uint_nonnil in H.
Qed.

Lemma number_to_string_inj (z1 z2 : Z) :
  number_to_string z1 = number_to_string z2 -> z1 = z2.
Proof.
  unfold number_to_string. intros H.
  apply (f_equal NilZero.int_of_string) in H.
  destruct (to_int_proper z1), (to_int_proper z2).
  rewrite !NilZero.isi in H by assumption.
  injection H as H. now apply DecimalZ.to_int_inj.
Qed.

Lemma refined_name_inj (j k : nat) : refined_name j = refined_name k -> j = k.
Proof.
  unfold refined_name. intros H.
  apply String.app_inj, append_inj_suffix, number_to_string_inj in H. lia.
Qed.

Lemma refined_name_not_extracted (k : nat) : refined_name k <> extracted_name.
Proof. discriminate. Qed.

(** *** Steps that touch neither the code nor the counter *)

Lemma written_app (tr1 tr2 : Trace) :
  written (tr1 ++ tr2) = written tr1 ++ written tr2.
Proof.
  induction tr1 as [|ev tr1 IH]; [reflexivity|].
  destruct ev; simpl; now rewrite IH.
Qed.

Ltac tidy_written := rewrite ?written_app; cbn [written]; rewrite ?app_nil_r.

Lemma exec_step_frame env m step :
  has_action "extractCode" step = false ->
  has_action "refineCode" step = false ->
  vars (fst (exec_step step env m)) = vars m /\
  files (fst (exec_step step env m)) = files m /\
  written (trace (fst (exec_step step env m))) = written (trace m).
Proof.
  intros He Hr. unfold exec_step. rewrite bind_run, destructure_run.
  destruct step; [now auto | now auto | ..].
  all: repeat match goal with
         | |- context [is_action (action_of ?s) ?name] =>
             change (is_action (action_of s) name) with (has_action name s)
         end; rewrite He, Hr.
  all: unfold_ops; norm; repeat (inner_case; norm).
  all: tidy_written; auto.
Qed.

Lemma run_frame env steps m :
  Forall other_action steps ->
  vars (fst (run_steps steps env m)) = vars m.
Proof.
  intros Hsteps. revert m.
  induction Hsteps as [|step steps [He Hr] _ IH]; intros m; [reflexivity|].
  rewrite run_steps_cons.
  destruct (exec_step_frame env m step He Hr) as (Hv & _).
  destruct (exec_step step env m) as [m' [[]|e]]; cbn [fst] in *.
  - now rewrite IH.
  - assumption.
Qed.

(** C10.  A step whose action is neither [extractCode] nor [refineCode]
    (navigate, wait, type, click, or an action the loop does not know)
    leaves [currentUIcode] and [iterationCount] as they were, whether it
    returns or throws, and so does any list of such steps; a step that
    changes one of the two variables is an [extractCode] or a [refineCode]
    step. *)
Theorem frame_other_actions env :
  (forall m step,
     other_action step -> vars (fst (exec_step step env m)) = vars m) /\
  (forall steps m,
     Forall other_action steps ->
     vars (fst (run_steps steps env m)) = vars m) /\
  (forall m step,
     vars (fst (exec_step step env m)) <> vars m ->
     has_action "extractCode" step = true \/
     has_action "refineCode" step = true).
Proof.
  split; [|split].
  - intros m step [He Hr]. now apply exec_step_frame.
  - intros steps m Hsteps. now apply run_frame.
  - intros m step Hchanged.
    destruct (has_action "extractCode" step) eqn:He; [now left|].
    destruct (has_action "refineCode" step) eqn:Hr; [now right|].
    destruct Hchanged. now apply exec_step_frame.
Qed.

Lemma frame_other_actions_witness :
  vars (fst (exec_step (mk_step "click" (JStr "text=Sign in"))
               env_click_timeout boot)) = initial_vars /\
  vars (fst (run_steps [mk_step "navigate" (JStr "https://x");
                        mk_step "wait" (JNum "2000");
                        mk_step "scroll" JNull] env_plain boot))
    = initial_vars.
Proof.
  destruct (frame_other_actions env_click_timeout) as (Hstep & _).
  destruct (frame_other_actions env_plain) as (_ & Hrun & _).
  split.
  - apply (Hstep boot (mk_step "click" (JStr "text=Sign in"))).
    split; reflexivity.
  - apply (Hrun [mk_step "navigate" (JStr "https://x");
                 mk_step "wait" (JNum "2000");
                 mk_step "scroll" JNull] boot).
    repeat constructor.
Defined.

(** *** [refineCode] without code *)

Lemma run_no_extract_keeps_empty env pre m m1 r :
  no_extract pre ->
  currentUIcode (vars m) = "" ->
  run_steps pre env m = (m1, r) ->
  vars m1 = vars m.
Proof.
  intros Hpre. revert m. induction Hpre as [|step pre Hstep _ IH];
    intros m Hcode Hrun.
  - now injection Hrun as <- _.
  - rewrite run_steps_cons in Hrun.
    assert (Hv : vars (fst (exec_step step env m)) = vars m).
    { destruct (has_action "refineCode" step) eqn:Hr.
      - now rewrite exec_refine_no_code.
      - now apply exec_step_frame. }
    destruct (exec_step step env m) as [m' [[]|e]]; simpl in Hv.
    + rewrite <- Hv. apply IH; [congruence | assumption].
    + injection Hrun as <- _. assumption.
Qed.

(** C2.  A [refineCode] step met while [currentUIcode] is empty only
    warns: the variables and the files stay as they are, the trace gains
    the warning and nothing else (no request to the provider, no file
    write), and the loop goes on with the next step.  And the variables keep
    their initial values for as long as no [extractCode] step has run. *)
Theorem refine_without_code_is_noop env step post :
  has_action "refineCode" step = true ->
  (forall m, currentUIcode (vars m) = "" ->
     let m' := fst (exec_step step env m) in
     exec_step step env m = (record warn_no_code m, Ok tt) /\
     vars m' = vars m /\ files m' = files m /\
     trace m' = trace m ++ [warn_no_code] /\
     run_steps (step :: post) env m = run_steps post env m') /\
  (forall pre m m1,
     no_extract pre -> vars m = initial_vars ->
     run_steps pre env m = (m1, Ok tt) ->
     vars m1 = initial_vars).
Proof.
  intros H. split.
  - intros m Hcode m'. subst m'. rewrite run_steps_cons.
    rewrite (exec_refine_no_code env m step H Hcode). repeat split.
  - intros pre m m1 Hpre Hm Hrun. rewrite <- Hm.
    eapply run_no_extract_keeps_empty; eauto. now rewrite Hm.
Qed.

Lemma refine_without_code_is_noop_witness :
  exec_step (refine_with "make responsive") env_plain boot
    = (record warn_no_code boot, Ok tt) /\
  vars (fst (run_steps [mk_step "wait" (JNum "2000");
                        refine_with "make responsive"] env_plain boot))
    = initial_vars.
Proof.
  destruct (refine_without_code_is_noop env_plain
              (refine_with "make responsive") [] eq_refl) as [Hstep Hpre].
  split.
  - apply Hstep. reflexivity.
  - apply (Hpre [mk_step "wait" (JNum "2000"); refine_with "make responsive"]
             boot).
    + repeat constructor.
    + reflexivity.
    + reflexivity.
Defined.

(** *** A click that times out *)

(** C4.  When the click of a [click] step fails, the loop stops there: the
    run throws what the click threw, the call of the click is the last
    event of the trace, and nothing of the steps after it is executed,
    whatever they are.  (The click is attempted when the selector converts
    to a string for the log line that precedes it.) *)
Theorem click_failure_aborts_rest env m pre step post m1 e :
  run_steps pre env m = (m1, Ok tt) ->
  has_action "click" step = true ->
  printable (details_of step) = true ->
  settles env (trace m1 ++ [log_click (details_of step);
                            Click (details_of step) 10000]) = Some e ->
  run_steps (pre ++ step :: post) env m
    = (record (Click (details_of step) 10000)
         (record (log_click (details_of step)) m1), Threw e).
Proof.
  intros Hpre H Hp Hfail.
  rewrite run_steps_app, Hpre, run_steps_cons, (exec_click env m1 step H Hp).
  cbv zeta. cbn [trace record]. rewrite <- app_assoc. cbn [app].
  now rewrite Hfail.
Qed.

Lemma click_failure_aborts_rest_witness :
  run_steps ([mk_step "wait" (JNum "2000")]
             ++ mk_step "click" (JStr "text=Sign in")
             :: [mk_step "extractCode" (JStr ".ui")])
    env_click_timeout boot
  = (record (Click (JStr "text=Sign in") 10000)
       (record (log_click (JStr "text=Sign in"))
          (fst (run_steps [mk_step "wait" (JNum "2000")]
                  env_click_timeout boot))),
     Threw (External "locator.click: Timeout 10000ms exceeded.")).
Proof.
  apply (click_failure_aborts_rest env_click_timeout boot
           [mk_step "wait" (JNum "2000")]
           (mk_step "click" (JStr "text=Sign in"))
           [mk_step "extractCode" (JStr ".ui")]); reflexivity.
Defined.

(** *** A wait without a number *)

(** C8, as the code has it.  A [wait] step whose details convert to a
    string in which [parseInt] finds no number still calls the timer, with
    [NaN], after logging so; the step is the step of a wait of 0 ms but for
    the log line and the argument of the timer: the same variables and
    files, which are those before the step, and the outcome of the timer
    call for outcome.  When the timer call returns, the loop goes on with
    the next step. *)
Theorem non_numeric_wait_degrades env m step post :
  has_action "wait" step = true ->
  parseInt (details_of step) = Some NaN ->
  let m' := record (WaitForTimeout NaN) (record log_wait_nan m) in
  let m0 := record (WaitForTimeout (Num 0))
              (record (Branches.log_waiting 0) m) in
  exec_step step env m
    = (m', match settles env (trace m') with
           | None => Ok tt
           | Some e => Threw e
           end) /\
  exec_step (mk_step "wait" (JNum "0")) env m
    = (m0, match settles env (trace m0) with
           | None => Ok tt
           | Some e => Threw e
           end) /\
  vars m' = vars m /\ files m' = files m /\
  vars m' = vars m0 /\ files m' = files m0 /\
  (settles env (trace m') = None ->
   run_steps (step :: post) env m = run_steps post env m').
Proof.
  intros H Hnan m' m0.
  assert (Hstep : exec_step step env m
                  = (m', match settles env (trace m') with
                         | None => Ok tt
                         | Some e => Threw e
                         end)).
  { rewrite (exec_wait env m step NaN H Hnan). reflexivity. }
  split; [exact Hstep|].
  split; [now rewrite (exec_wait env m (mk_step "wait" (JNum "0")) (Num 0))|].
  do 4 (split; [reflexivity|]).
  intros Hok. rewrite run_steps_cons, Hstep, Hok. reflexivity.
Qed.

Lemma non_numeric_wait_degrades_witness :
  exec_step (mk_step "wait" (JStr "a moment")) env_plain boot
    = (record (WaitForTimeout NaN) (record log_wait_nan boot), Ok tt).
Proof.
  apply (non_numeric_wait_degrades env_plain boot
           (mk_step "wait" (JStr "a moment")) []); reflexivity.
Defined.

(** C8 as worded fails: details that are an object with a property
    [toString] of its own are not read as a number, and [parseInt] throws
    on them: the step raises a [TypeError] and the run ends there. *)
Lemma unconvertible_wait_throws :
  ~ wait_degrades_silently env_plain boot
      (mk_step "wait" (JObj [("toString", JNum "1")])).
Proof.
  intros H. specialize (H eq_refl (fun _ => eq_refl)).
  vm_compute in H. destruct H as [H _]. discriminate H.
Qed.

(** *** The effect of a step on the artifacts *)

Lemma exec_step_effect env m step :
  step_effect step m (fst (exec_step step env m)) (snd (exec_step step env m)).
Proof.
  destruct (has_action "extractCode" step) eqn:He.
  { destruct (printable (details_of step)) eqn:Hp.
    2: { left. rewrite exec_unprintable by auto. unfold untouched. auto. }
    rewrite (exec_extract env m step He Hp).
    unfold step_effect, untouched, wrote.
    rewrite He. norm. repeat (inner_case; norm); tidy_written.
    all: first [ left; now auto | right; left; now auto ]. }
  destruct (has_action "refineCode" step) eqn:Hr.
  2: { left. now apply exec_step_frame. }
  destruct (str_nonempty (currentUIcode (vars m))) eqn:Hcode.
  2: { left. rewrite exec_refine_no_code by (assumption || now destruct (currentUIcode (vars m))).
       unfold untouched. norm. tidy_written. auto. }
  assert (Hne : currentUIcode (vars m) <> "")
    by (intros Heq; rewrite Heq in Hcode; discriminate).
  destruct (truthy (prop (details_of step) "refinement")) eqn:Ht.
  - destruct (printable (prop (details_of step) "refinement")) eqn:Hp.
    2: { left. rewrite exec_refine_unprintable by auto.
         unfold untouched. auto. }
    rewrite (exec_refine env m step Hr Hne Ht Hp).
    unfold step_effect, untouched, wrote. rewrite Hr. norm.
    repeat (inner_case; norm); tidy_written.
    all: first [ left; now auto | right; right; now auto ].
  - left. clear Hne. enter_branch step Hr.
    all: unfold_ops; rewrite Hcode; unfold untouched.
    all: change (default JUndefined (get_prop ?d ?k)) with (prop d k) in *.
    all: destruct (details_of _) eqn:Hd; norm;
      cbn [typeof_is_object get_prop] in *; norm; tidy_written; auto.
    all: cbv [prop default from_option id get_prop] in Ht; try rewrite Ht;
      cbn [truthy]; norm; tidy_written; auto.
Qed.

Lemma exec_refine_succeeds env m step refined :
  refine_succeeds env m step refined ->
  exec_step step env m = (refined_machine m step refined, Ok tt).
Proof.
  intros (H & Hcode & Ht & Hp & (response & Hresp & Htext) & Hwrite).
  rewrite (exec_refine env m step H Hcode Ht Hp). norm.
  rewrite <- app_assoc. cbn [app].
  rewrite Hresp, Htext.
  rewrite <- !app_assoc in Hwrite |- *. cbn [app] in Hwrite |- *.
  rewrite Hwrite. reflexivity.
Qed.

(** *** Invariants of a run *)

Lemma step_effect_count step m m' r :
  step_effect step m m' r ->
  iterationCount (vars m') = iterationCount (vars m) \/
  (has_action "refineCode" step = true /\
   iterationCount (vars m') = S (iterationCount (vars m))).
Proof.
  intros [(Hv & _) | [(_ & Hc & _) | (Hr & Hc & _)]]; auto.
  left. now rewrite Hv.
Qed.

Lemma artifact_name_mono (j k : nat) (name : string) :
  (j <= k)%nat -> artifact_name j name -> artifact_name k name.
Proof.
  intros Hle [-> | (i & Hi & ->)]; [now left | right].
  exists i. split; [lia | reflexivity].
Qed.

Lemma step_effect_within step m m' r :
  step_effect step m m' r -> artifacts_within m -> artifacts_within m'.
Proof.
  intros Heff [Htr Hfs].
  destruct Heff as [(Hv & Hf & Hw) | [(_ & Hc & Hw & Hf) | (_ & Hc & Hw & Hf)]].
  - split; intros name; rewrite ?Hw, ?Hf, Hv; auto.
  - split; intros name; rewrite ?Hw, Hc.
    + rewrite elem_of_app, list_elem_of_singleton.
      intros [Hin | ->]; [auto | now left].
    + rewrite Hf. destruct r.
      * destruct (decide (name = extracted_name)) as [-> | Hne];
          [now left | rewrite lookup_insert_ne by congruence; auto].
      * auto.
  - assert (Hnew : artifact_name (S (iterationCount (vars m)))
                     (refined_name (S (iterationCount (vars m))))).
    { right. eexists. split; [|reflexivity]. lia. }
    split; intros name; rewrite ?Hw, Hc.
    + rewrite elem_of_app, list_elem_of_singleton.
      intros [Hin | ->]; [|assumption].
      eapply artifact_name_mono; [|eauto]. lia.
    + rewrite Hf. intros Hsome.
      destruct (decide (name = refined_name (S (iterationCount (vars m)))))
        as [-> | Hne]; [assumption|].
      eapply (artifact_name_mono (iterationCount (vars m))); [lia|].
      apply Hfs. destruct r; [|assumption].
      now rewrite lookup_insert_ne in Hsome by congruence.
Qed.

Section RunInvariants.

Context (env : Env).

(** Induction over a run, for relations between its first and its last
    machine that every step respects. *)
Lemma run_steps_ind (R : Machine -> Machine -> Prop) :
  (forall m, R m m) ->
  (forall m1 m2 m3, R m1 m2 -> R m2 m3 -> R m1 m3) ->
  (forall step m, R m (fst (exec_step step env m))) ->
  forall steps m, R m (fst (run_steps steps env m)).
Proof.
  intros Hrefl Htrans Hstep steps.
  induction steps as [|step steps IH]; intros m; [apply Hrefl|].
  rewrite run_steps_cons. specialize (Hstep step m).
  destruct (exec_step step env m) as [m' [[]|e]]; cbn [fst] in *.
  - eapply Htrans; [exact Hstep | apply IH].
  - assumption.
Qed.

Lemma run_count_mono steps m :
  (iterationCount (vars m)
   <= iterationCount (vars (fst (run_steps steps env m))))%nat.
Proof.
  revert steps m.
  apply (run_steps_ind
           (fun m m' => (iterationCount (vars m) <= iterationCount (vars m'))%nat)).
  - intros; lia.
  - intros; lia.
  - intros step m.
    destruct (step_effect_count _ _ _ _ (exec_step_effect env m step))
      as [-> | [_ ->]]; lia.
Qed.

Lemma run_within steps m :
  artifacts_within m -> artifacts_within (fst (run_steps steps env m)).
Proof.
  revert steps m.
  apply (run_steps_ind (fun m m' => artifacts_within m -> artifacts_within m')).
  - auto.
  - auto.
  - intros step m. apply step_effect_within with (step := step)
      (r := snd (exec_step step env m)). apply exec_step_effect.
Qed.

(** The file of an iteration already counted is not written again. *)
Lemma run_keeps_iteration_files steps m :
  forall k, (k <= iterationCount (vars m))%nat ->
    files (fst (run_steps steps env m)) !! refined_name k
      = files m !! refined_name k.
Proof.
  revert steps m.
  apply (run_steps_ind
           (fun m m' =>
              (iterationCount (vars m) <= iterationCount (vars m'))%nat /\
              forall k, (k <= iterationCount (vars m))%nat ->
                files m' !! refined_name k = files m !! refined_name k)).
  - intros m. split; [lia | reflexivity].
  - intros m1 m2 m3 [Hle1 H1] [Hle2 H2]. split; [lia|].
    intros k Hk. rewrite H2 by lia. now apply H1.
  - intros step m.
    pose proof (exec_step_effect env m step) as Heff.
    destruct Heff as [(Hv & Hf & _) | [(_ & Hc & _ & Hf) | (_ & Hc & _ & Hf)]].
    + rewrite Hv, Hf. split; [lia | reflexivity].
    + rewrite Hc, Hf. split; [lia|]. intros k _.
      destruct (snd (exec_step step env m)); [|reflexivity].
      apply lookup_insert_ne. apply not_eq_sym, refined_name_not_extracted.
    + rewrite Hc, Hf. split; [lia|]. intros k Hk.
      destruct (snd (exec_step step env m)); [|reflexivity].
      apply lookup_insert_ne. intros Heq. apply refined_name_inj in Heq. lia.
Qed.

End RunInvariants.

Section RunFiles.

Context (env : Env).

Lemma run_no_extract_keeps_file steps m :
  no_extract steps ->
  files (fst (run_steps steps env m)) !! extracted_name
    = files m !! extracted_name.
Proof.
  intros Hsteps. revert m.
  induction Hsteps as [|step steps Hstep _ IH]; intros m; [reflexivity|].
  rewrite run_steps_cons.
  assert (Hf : files (fst (exec_step step env m)) !! extracted_name
               = files m !! extracted_name).
  { destruct (exec_step_effect env m step)
      as [(_ & -> & _) | [(He & _) | (_ & _ & _ & ->)]].
    - reflexivity.
    - congruence.
    - destruct (snd (exec_step step env m)); [|reflexivity].
      apply lookup_insert_ne, refined_name_not_extracted. }
  destruct (exec_step step env m) as [m' [[]|e]]; cbn [fst] in *.
  - now rewrite IH.
  - assumption.
Qed.

Lemma run_iteration_files_complete steps m m' :
  (forall k, (1 <= k <= iterationCount (vars m))%nat ->
             is_Some (files m !! refined_name k)) ->
  run_steps steps env m = (m', Ok tt) ->
  forall k, (1 <= k <= iterationCount (vars m'))%nat ->
            is_Some (files m' !! refined_name k).
Proof.
  revert m. induction steps as [|step steps IH]; intros m Hm Hrun.
  - now injection Hrun as <-.
  - rewrite run_steps_cons in Hrun.
    pose proof (exec_step_effect env m step) as Heff.
    destruct (exec_step step env m) as [m1 [[]|e]]; [|discriminate].
    cbn [fst snd] in Heff. apply (IH m1); [|assumption].
    destruct Heff as [(Hv & Hf & _) | [(_ & Hc & _ & Hf) | (_ & Hc & _ & Hf)]];
      intros k Hk; rewrite Hf.
    + apply Hm. now rewrite <- Hv.
    + rewrite lookup_insert_ne
        by (apply not_eq_sym, refined_name_not_extracted).
      apply Hm. lia.
    + destruct (decide (k = S (iterationCount (vars m)))) as [-> | Hne].
      * rewrite lookup_insert_eq. eauto.
      * rewrite lookup_insert_ne
          by (intros Heq; apply refined_name_inj in Heq; lia).
        apply Hm. lia.
Qed.

Lemma exec_extract_ok step m m1 :
  has_action "extractCode" step = true ->
  exec_step step env m = (m1, Ok tt) ->
  files m1 !! extracted_name = Some (currentUIcode (vars m1)).
Proof.
  intros H. destruct (printable (details_of step)) eqn:Hp.
  2: { rewrite exec_unprintable by auto. discriminate. }
  rewrite (exec_extract env m step H Hp). norm.
  repeat (inner_case; norm); intros [= <-]; norm.
  apply lookup_insert_eq.
Qed.

End RunFiles.

Lemma at_loop_start_within m : at_loop_start m -> artifacts_within m.
Proof.
  intros (_ & Hw & Hf). split; intros name; rewrite ?Hw, ?Hf.
  - intros Hin. now apply elem_of_nil in Hin.
  - rewrite lookup_empty. intros [? [=]].
Qed.

(** *** The counter and the iteration files *)

(** C3.  [iterationCount] starts at 0; a step leaves it as it is or adds
    one, and only a [refineCode] step adds one; over a run it never goes
    down.  A [refineCode] step that goes through adds exactly one and
    writes exactly one file, named by the new count, and that name is not
    among the names written earlier in the same run. *)
Theorem iteration_count_discipline env :
  iterationCount initial_vars = 0%nat /\
  (forall m step,
     iterationCount (vars (fst (exec_step step env m)))
       = iterationCount (vars m) \/
     (has_action "refineCode" step = true /\
      iterationCount (vars (fst (exec_step step env m)))
        = S (iterationCount (vars m)))) /\
  (forall steps m,
     (iterationCount (vars m)
      <= iterationCount (vars (fst (run_steps steps env m))))%nat) /\
  (forall m step refined,
     refine_succeeds env m step refined ->
     let m' := fst (exec_step step env m) in
     snd (exec_step step env m) = Ok tt /\
     iterationCount (vars m') = S (iterationCount (vars m)) /\
     written (trace m')
       = written (trace m) ++ [refined_name (iterationCount (vars m'))] /\
     files m' = <[refined_name (iterationCount (vars m')) := refined]> (files m)) /\
  (forall steps m,
     at_loop_start m ->
     refined_name (S (iterationCount (vars (fst (run_steps steps env m)))))
       ∉ written (trace (fst (run_steps steps env m)))).
Proof.
  split; [reflexivity|]. split; [|split; [|split]].
  - intros m step. eapply step_effect_count, exec_step_effect.
  - intros steps m. apply run_count_mono.
  - intros m step refined Hok.
    rewrite (exec_refine_succeeds env m step refined Hok).
    unfold refined_machine. norm. tidy_written. auto.
  - intros steps m Hstart Hin.
    apply (run_within env steps m (at_loop_start_within m Hstart)) in Hin.
    destruct Hin as [Heq | (k & Hk & Heq)].
    + now apply refined_name_not_extracted in Heq.
    + apply refined_name_inj in Heq. lia.
Qed.

Lemma iteration_count_discipline_witness :
  iterationCount (vars (fst (exec_step (refine_with "make responsive")
                               env_plain (after_extraction env_plain))))
    = 1%nat /\
  refined_name 2
    ∉ written (trace (fst (run_steps plan env_plain boot))).
Proof.
  destruct (iteration_count_discipline env_plain)
    as (_ & _ & _ & Hrefine & Hfresh).
  split.
  - apply (Hrefine (after_extraction env_plain)
             (refine_with "make responsive")
             "<div class='r'>UI</div>").
    repeat split; try reflexivity; try discriminate.
    eexists. split; reflexivity.
  - apply (Hfresh plan boot). repeat split; reflexivity.
Defined.

(** *** The files a run leaves *)

(** C7, as the code has it.  The files of a run are the extraction file
    and the files of the iterations counted; when the run returns, every
    iteration counted has its file.  The extraction file holds the code of
    the last extraction (each [extractCode] step replaces it), and the file
    of an iteration holds the code that refinement returned, whatever steps
    follow.  The name of an iteration file is a one-to-one function of the
    count and never the name of the extraction file. *)
Theorem artifacts_of_run env steps m :
  at_loop_start m ->
  let m' := fst (run_steps steps env m) in
  (forall name, is_Some (files m' !! name) ->
                artifact_name (iterationCount (vars m')) name) /\
  (snd (run_steps steps env m) = Ok tt ->
   forall k, (1 <= k <= iterationCount (vars m'))%nat ->
             is_Some (files m' !! refined_name k)) /\
  (forall pre step post m1,
     steps = pre ++ step :: post ->
     has_action "extractCode" step = true ->
     no_extract post ->
     run_steps (pre ++ [step]) env m = (m1, Ok tt) ->
     files m' !! extracted_name = Some (currentUIcode (vars m1))) /\
  (forall pre step post m0 refined,
     steps = pre ++ step :: post ->
     run_steps pre env m = (m0, Ok tt) ->
     refine_succeeds env m0 step refined ->
     files m' !! refined_name (S (iterationCount (vars m0))) = Some refined) /\
  (forall j k, refined_name j = refined_name k -> j = k) /\
  (forall k, refined_name k <> extracted_name).
Proof.
  intros Hstart m'. subst m'.
  split; [|split; [|split; [|split; [|split]]]].
  - apply run_within, at_loop_start_within, Hstart.
  - intros Hok. destruct (run_steps steps env m) as [m' r] eqn:Hrun.
    cbn [fst snd] in *. subst r.
    apply (run_iteration_files_complete env steps m m'); [|assumption].
    destruct Hstart as (-> & _). cbn. intros k Hk. lia.
  - intros pre step post m1 -> Hstep Hpost Hrun.
    replace (pre ++ step :: post) with ((pre ++ [step]) ++ post)
      by (now rewrite <- app_assoc).
    rewrite run_steps_app, Hrun, (run_no_extract_keeps_file env post m1 Hpost).
    rewrite run_steps_app in Hrun.
    destruct (run_steps pre env m) as [m0 [[]|e]]; [|discriminate].
    rewrite run_steps_cons in Hrun.
    destruct (exec_step step env m0) as [m2 [[]|e]] eqn:Hexec; [|discriminate].
    injection Hrun as <-. eapply exec_extract_ok; eauto.
  - intros pre step post m0 refined -> Hpre Hok.
    rewrite run_steps_app, Hpre, run_steps_cons.
    rewrite (exec_refine_succeeds env m0 step refined Hok).
    rewrite run_keeps_iteration_files by (cbn; lia).
    unfold refined_machine. norm. apply lookup_insert_eq.
  - apply refined_name_inj.
  - apply refined_name_not_extracted.
Qed.

Lemma artifacts_of_run_witness :
  files (fst (run_steps plan env_plain boot)) !! refined_name 1
    = Some "<div class='r'>UI</div>" /\
  files (fst (run_steps plan env_plain boot)) !! extracted_name
    = Some "<div>UI</div>".
Proof.
  destruct (artifacts_of_run env_plain plan boot) as (_ & _ & He & Hr & _).
  { repeat split; reflexivity. }
  split.
  - apply (Hr [mk_step "navigate" (JStr "https://x");
               mk_step "wait" (JNum "2000");
               mk_step "extractCode" (JStr ".ui")]
              (refine_with "make responsive") []
              (fst (run_steps [mk_step "navigate" (JStr "https://x");
                               mk_step "wait" (JNum "2000");
                               mk_step "extractCode" (JStr ".ui")]
                      env_plain boot))).
    + reflexivity.
    + reflexivity.
    + repeat split; try reflexivity; try discriminate.
      eexists. split; reflexivity.
  - apply (He [mk_step "navigate" (JStr "https://x");
               mk_step "wait" (JNum "2000")]
              (mk_step "extractCode" (JStr ".ui"))
              [refine_with "make responsive"]
              (fst (run_steps [mk_step "navigate" (JStr "https://x");
                               mk_step "wait" (JNum "2000");
                               mk_step "extractCode" (JStr ".ui")]
                      env_plain boot))).
    + reflexivity.
    + reflexivity.
    + repeat constructor.
    + reflexivity.
Defined.

(** C7 as worded fails: of two extractions, the file keeps the second. *)
Lemma second_extraction_replaces_file :
  ~ keeps_first_extraction env_two_pages two_extractions.
Proof.
  intros H.
  specialize (H [] (mk_step "extractCode" (JStr ".ui"))
                [mk_step "extractCode" (JStr ".ui")]
                (fst (run_steps [mk_step "extractCode" (JStr ".ui")]
                        env_two_pages boot))
                eq_refl (List.Forall_nil _) eq_refl eq_refl).
  vm_compute in H. discriminate H.
Qed.

(** *** Runs in which nothing fails *)

Ltac fold_has_action :=
  repeat match goal with
         | |- context [is_action (action_of ?s) ?name] =>
             change (is_action (action_of s) name) with (has_action name s)
         end.

Lemma is_text_prop (d : JsValue) (k : string) :
  is_text (prop d k) = true ->
  exists s, get_prop d k = Some (JStr s) /\ truthy (JStr s) = true.
Proof.
  unfold prop. destruct (get_prop d k) as [[]|]; try discriminate.
  intros H. eexists. split; [reflexivity | exact H].
Qed.

Lemma is_text_truthy (v : JsValue) :
  is_text v = true -> truthy v = true /\ printable v = true.
Proof.
  destruct v; try discriminate. intros H. split; [exact H | reflexivity].
Qed.

Lemma exec_step_ok_other env m step :
  cooperative env ->
  well_formed step = true ->
  has_action "extractCode" step = false ->
  has_action "refineCode" step = false ->
  snd (exec_step step env m) = Ok tt.
Proof.
  intros Hc Hwf He Hr. unfold well_formed in Hwf.
  unfold exec_step. rewrite bind_run, destructure_run.
  destruct step; try discriminate Hwf.
  all: fold_has_action; rewrite He, Hr in *.
  all: repeat match goal with
         | |- context [has_action ?name ?s] =>
             destruct (has_action name s) eqn:?
         end; try discriminate Hwf.
  all: unfold_ops; norm.
  all: destruct (details_of _) eqn:Hd; try discriminate Hwf.
  all: cbn [to_string is_string] in *; norm;
    rewrite ?(coop_settles env Hc); try reflexivity.
  - apply andb_prop in Hwf as [Hwf Htext].
    apply andb_prop in Hwf as [_ Hsel].
    apply is_text_prop in Hsel as (sel & -> & Hsel).
    apply is_text_prop in Htext as (txt & -> & Htext).
    cbn [typeof_is_object]. norm. rewrite Hsel. norm. rewrite Htext. norm.
    cbn [to_string]. norm. rewrite !(coop_settles env Hc). reflexivity.
  - destruct (parseInt (JNum _)) as [[]|]; try discriminate Hwf.
    all: norm; now rewrite (coop_settles env Hc).
  - destruct (parseInt (JStr _)) as [[]|]; try discriminate Hwf.
    all: norm; now rewrite (coop_settles env Hc).
Qed.

Lemma well_formed_refine step :
  well_formed step = true ->
  has_action "refineCode" step = true ->
  truthy (prop (details_of step) "refinement") = true /\
  printable (prop (details_of step) "refinement") = true.
Proof.
  intros Hwf Hr. unfold well_formed in Hwf.
  rewrite !(has_action_unique _ _ _ Hr) in Hwf by discriminate.
  rewrite Hr in Hwf. apply andb_prop in Hwf as [_ Hwf].
  now apply is_text_truthy.
Qed.

Lemma well_formed_extract step :
  well_formed step = true ->
  has_action "extractCode" step = true ->
  printable (details_of step) = true.
Proof.
  intros Hwf He. unfold well_formed in Hwf.
  rewrite !(has_action_unique _ _ _ He) in Hwf by discriminate.
  rewrite He in Hwf. now destruct (details_of step).
Qed.

Lemma run_cooperative env steps m :
  cooperative env ->
  Forall (fun step => well_formed step = true) steps ->
  extract_precedes_refine (str_nonempty (currentUIcode (vars m))) steps
    = true ->
  exists m', run_steps steps env m = (m', Ok tt) /\
             iterationCount (vars m')
               = (iterationCount (vars m) + count_refine steps)%nat.
Proof.
  intros Hc Hwf. revert m.
  induction Hwf as [|step steps Hstep _ IH]; intros m Hdeps.
  - exists m. split; [reflexivity | cbn; lia].
  - cbn [extract_precedes_refine count_refine] in *. rewrite run_steps_cons.
    destruct (has_action "refineCode" step) eqn:Hr.
    + apply andb_prop in Hdeps as [Hcode Hdeps].
      assert (Hne : currentUIcode (vars m) <> "")
        by (intros Heq; rewrite Heq in Hcode; discriminate).
      destruct (well_formed_refine _ Hstep Hr) as [Ht Hp].
      rewrite (exec_refine env m step Hr Hne Ht Hp).
      norm.
      destruct (coop_reply env Hc
                  ((trace m ++ [log_refining (prop (details_of step) "refinement")])
                   ++ [ChatCreate (refine_request (currentUIcode (vars m))
                                     (prop (details_of step) "refinement"))]))
        as (response & refined & -> & -> & Hrefined).
      rewrite (coop_settles env Hc).
      match goal with
      | |- context [run_steps steps env ?m1] =>
          destruct (IH m1) as (m' & Hrun & Hcount)
      end.
      { norm. cbn [currentUIcode]. rewrite (str_nonempty_true _ Hrefined).
        now rewrite Hcode in Hdeps. }
      exists m'. split; [assumption|]. rewrite Hcount. cbn. lia.
    + destruct (has_action "extractCode" step) eqn:He.
      * rewrite (exec_extract env m step He (well_formed_extract _ Hstep He)).
        norm. rewrite (coop_settles env Hc).
        destruct (coop_html env Hc
                    (((trace m ++ [log_extracting (details_of step)])
                      ++ [WaitForSelector (details_of step) 10000])
                     ++ [InnerHTML]))
          as (html & -> & Hhtml).
        rewrite (coop_settles env Hc).
        match goal with
        | |- context [run_steps steps env ?m1] =>
            destruct (IH m1) as (m' & Hrun & Hcount)
        end.
        { norm. cbn [currentUIcode]. rewrite (str_nonempty_true _ Hhtml).
          rewrite orb_true_r in Hdeps. assumption. }
        exists m'. split; [assumption|]. rewrite Hcount. cbn. lia.
      * pose proof (exec_step_ok_other env m step Hc Hstep He Hr) as Hok.
        destruct (exec_step_frame env m step He Hr) as (Hv & _).
        destruct (exec_step step env m) as [m1 r]. cbn [fst snd] in *.
        subst r. destruct (IH m1) as (m' & Hrun & Hcount).
        { rewrite Hv. now rewrite orb_false_r in Hdeps. }
        exists m'. split; [assumption|]. rewrite Hcount, Hv. cbn. lia.
Qed.

(** C1, as the code has it.  When every step is well-formed, every
    [refineCode] step has an [extractCode] step before it, no call fails
    (browser, provider, file system), and neither an extraction nor a
    refinement comes back empty, the loop returns and [iterationCount] is
    the number of [refineCode] steps. *)
Theorem well_formed_run_counts env steps m :
  cooperative env ->
  vars m = initial_vars ->
  Forall (fun step => well_formed step = true) steps ->
  extract_precedes_refine false steps = true ->
  snd (run_steps steps env m) = Ok tt /\
  iterationCount (vars (fst (run_steps steps env m))) = count_refine steps.
Proof.
  intros Hc Hv Hwf Hdeps.
  destruct (run_cooperative env steps m Hc Hwf) as (m' & Hrun & Hcount).
  - now rewrite Hv.
  - rewrite Hrun. cbn [fst snd]. rewrite Hcount, Hv. split; reflexivity.
Qed.

Lemma well_formed_run_counts_witness :
  snd (run_steps plan env_plain boot) = Ok tt /\
  iterationCount (vars (fst (run_steps plan env_plain boot))) = 1%nat.
Proof.
  apply (well_formed_run_counts env_plain plan boot).
  - split; intros tr.
    + reflexivity.
    + eexists. split; [reflexivity | discriminate].
    + do 2 eexists. split; [reflexivity|]. split; [reflexivity | discriminate].
  - reflexivity.
  - repeat constructor.
  - reflexivity.
Defined.

(** C1 as worded fails: when the first refinement comes back empty, the
    second [refineCode] step finds no code and is skipped; one iteration is
    counted for two [refineCode] steps. *)
Lemma empty_refinement_stops_count :
  ~ counts_every_refine env_empty_reply extract_refine_twice.
Proof.
  intros H. destruct H as [_ Hcount].
  - repeat constructor.
  - reflexivity.
  - intros tr. split; [reflexivity | eexists; reflexivity].
  - vm_compute in Hcount. discriminate Hcount.
Qed.

(** *** From the page to the provider and back *)

(** C5, as the code has it.  An [extractCode] step that returns has put
    into [currentUIcode] the very markup the page gave.  When that markup is
    not empty and the next step is a [refineCode] step whose refinement [R]
    is truthy and converts to a string (a non-empty string, say), the step
    calls [refineUICode] with that code and [R], the request carries the
    code and the text of [R] as they are, and what [refineUICode] returns
    becomes [currentUIcode] as it is. *)
Theorem extract_then_refine_round_trip env m extract refine m1 :
  has_action "extractCode" extract = true ->
  has_action "refineCode" refine = true ->
  exec_step extract env m = (m1, Ok tt) ->
  currentUIcode (vars m1) <> "" ->
  truthy (prop (details_of refine) "refinement") = true ->
  printable (prop (details_of refine) "refinement") = true ->
  let R := prop (details_of refine) "refinement" in
  let code := currentUIcode (vars m1) in
  let asked := refineUICode code R env (record (log_refining R) m1) in
  inner_html env (trace m ++ [log_extracting (details_of extract);
                              WaitForSelector (details_of extract) 10000;
                              InnerHTML]) = Ok code /\
  trace (fst asked)
    = trace m1 ++ [log_refining R; ChatCreate (refine_request code R)] /\
  match snd asked with
  | Ok refined =>
      vars (fst (exec_step refine env m1))
        = {| currentUIcode := refined;
             iterationCount := S (iterationCount (vars m1)) |}
  | Threw e => exec_step refine env m1 = (fst asked, Threw e)
  end.
Proof.
  intros He Hr Hextract Hcode Ht Hp R code asked.
  pose proof (printable_rendered _ Hp) as Hshown. fold R in Hshown.
  split; [|split].
  - subst code. revert Hextract.
    destruct (printable (details_of extract)) eqn:Hpe.
    2: { rewrite exec_unprintable by auto. discriminate. }
    rewrite (exec_extract env m extract He Hpe). norm.
    repeat (inner_case; norm); intros [= <-]; norm.
    match goal with
    | Hhtml : inner_html env _ = Ok _ |- _ =>
        rewrite <- !app_assoc in Hhtml; exact Hhtml
    end.
  - subst asked. unfold_ops. rewrite Hshown. norm.
    repeat (inner_case; norm); now rewrite <- app_assoc.
  - subst asked. rewrite (exec_refine env m1 refine Hr Hcode Ht Hp).
    fold R. fold code. unfold_ops. rewrite Hshown. norm.
    repeat (inner_case; norm); reflexivity.
Qed.

Lemma extract_then_refine_round_trip_witness :
  vars (fst (exec_step (refine_with "make responsive") env_plain
               (after_extraction env_plain)))
    = {| currentUIcode := "<div class='r'>UI</div>"; iterationCount := 1 |}.
Proof.
  assert (Hcode : currentUIcode (vars (after_extraction env_plain)) <> "")
    by discriminate.
  destruct (extract_then_refine_round_trip env_plain boot
              (mk_step "extractCode" (JStr ".ui"))
              (refine_with "make responsive") (after_extraction env_plain)
              eq_refl eq_refl eq_refl Hcode eq_refl eq_refl)
    as (_ & _ & Hback).
  exact Hback.
Defined.

(** C5 as worded fails: when the element has no markup inside, the
    [refineCode] step that follows sends the provider nothing. *)
Lemma empty_extraction_skips_provider :
  ~ provider_always_called env_empty_page boot
      (mk_step "extractCode" (JStr ".ui")) (refine_with "make responsive").
Proof.
  intros H.
  specialize (H eq_refl eq_refl _ eq_refl).
  vm_compute in H. intuition discriminate.
Qed.

(** *** A reply without content *)

Lemma content_absent_text response :
  content_absent response = true -> message_text response = Ok "".
Proof.
  unfold content_absent, message_text, prop.
  destruct (nullish response); [reflexivity|]. cbn [orb].
  destruct (get_index0 _) as [choice|]; [|discriminate].
  destruct (nullish choice); [reflexivity|]. cbn [orb].
  destruct (nullish (default JUndefined (get_prop choice "message")));
    [reflexivity|]. cbn [orb].
  destruct (default JUndefined (get_prop _ "content")); (reflexivity || discriminate).
Qed.

(** C6, as the code has it.  When the reply of the provider carries no
    content (the response, its first choice, the message or the content is
    [null] or absent), [refineUICode] returns the empty string and the
    [refineCode] step, whose refinement is truthy and converts to a string
    so that the provider is asked, takes it as it takes any result: [currentUIcode]
    becomes empty, [iterationCount] goes up by one, and the file of the
    iteration is written, empty; the step returns without a warning. *)
Theorem absent_content_overwrites_code env m step response :
  let refinement := prop (details_of step) "refinement" in
  let asked := trace m ++ [log_refining refinement;
                           ChatCreate (refine_request (currentUIcode (vars m))
                                         refinement)] in
  let count := S (iterationCount (vars m)) in
  has_action "refineCode" step = true ->
  currentUIcode (vars m) <> "" ->
  truthy refinement = true ->
  printable refinement = true ->
  chat_response env asked = Ok response ->
  content_absent response = true ->
  settles env (asked ++ [WriteFile (refined_name count) ""]) = None ->
  exec_step step env m = (refined_machine m step "", Ok tt) /\
  vars (refined_machine m step "")
    = {| currentUIcode := ""; iterationCount := count |} /\
  files (refined_machine m step "") !! refined_name count = Some "" /\
  trace (refined_machine m step "")
    = asked ++ [WriteFile (refined_name count) ""; log_refined count].
Proof.
  intros R asked count H Hcode Ht Hp Hresp Habsent Hwrite.
  split; [|split; [|split]].
  - apply exec_refine_succeeds. repeat split; try assumption.
    exists response. split; [assumption | now apply content_absent_text].
  - reflexivity.
  - unfold refined_machine. norm. apply lookup_insert_eq.
  - unfold refined_machine. norm. subst asked.
    now rewrite <- !app_assoc.
Qed.

Lemma absent_content_overwrites_code_witness :
  exec_step (refine_with "make responsive") env_null_content
    (after_extraction env_null_content)
  = (refined_machine (after_extraction env_null_content)
       (refine_with "make responsive") "", Ok tt).
Proof.
  apply (absent_content_overwrites_code env_null_content
           (after_extraction env_null_content)
           (refine_with "make responsive") (completion JNull));
    (reflexivity || discriminate).
Defined.

(** C6 as worded fails: a reply whose content is [null] empties
    [currentUIcode] and counts an iteration. *)
Lemma null_content_changes_state :
  ~ format_error_is_noop env_null_content
      (after_extraction env_null_content) (refine_with "make responsive").
Proof.
  intros H. destruct H as [Hvars _].
  - reflexivity.
  - intros tr. eexists. split; reflexivity.
  - vm_compute in Hvars. discriminate Hvars.
Qed.

(** *** The top level *)

(** C9, as the code has it.  The handler attached at the top level
    catches whatever [runBrowserAgent] throws and only logs it with
    [console.error]; no rejection is left unhandled and no exit status is
    set, so the status is 0 after a failure as after a completed run. *)
Theorem exit_status_always_zero argv2 env :
  run_exit_status argv2 env = 0 /\
  (forall m e,
     runBrowserAgent (userCommand argv2) env boot = (m, Threw e) ->
     main argv2 env boot
       = (record (Console LError [text "Error running browser agent:";
                                  CExn e]) m, Ok tt)).
Proof.
  unfold run_exit_status, main, promise_catch. split.
  - destruct (runBrowserAgent _ env boot) as [m [[]|e]]; reflexivity.
  - intros m e ->. reflexivity.
Qed.

Lemma exit_status_always_zero_witness :
  main None env_click_timeout boot
    = (record (Console LError
                 [text "Error running browser agent:";
                  CExn (External "locator.click: Timeout 10000ms exceeded.")])
         (fst (runBrowserAgent default_command env_click_timeout boot)),
       Ok tt).
Proof.
  destruct (exit_status_always_zero None env_click_timeout) as [_ H].
  apply H. reflexivity.
Defined.

(** C9 as worded fails: a click that times out ends the run with an error
    logged and with status 0. *)
Lemma click_timeout_exits_zero :
  ~ exit_status_reports_failure None env_click_timeout.
Proof.
  intros [_ H].
  apply (H (External "locator.click: Timeout 10000ms exceeded."));
    reflexivity.
Qed.

(* ===================================================================== *)
(** ** Further properties of the loop, the providers and the driver *)
(* ===================================================================== *)

Import Branches.

(** *** Order of the steps *)

(** Steps run one after the other: a list run in two parts gives what the
    whole gives, the second part starting from the machine the first
    leaves; and when a part throws, the run ends there with that machine,
    whatever steps follow. *)
Theorem run_steps_sequential env pre post m m1 :
  (run_steps pre env m = (m1, Ok tt) ->
   run_steps (pre ++ post) env m = run_steps post env m1) /\
  (forall e, run_steps pre env m = (m1, Threw e) ->
             run_steps (pre ++ post) env m = (m1, Threw e)) /\
  (forall step e, run_steps pre env m = (m1, Ok tt) ->
                  snd (exec_step step env m1) = Threw e ->
                  run_steps (pre ++ step :: post) env m
                    = (fst (exec_step step env m1), Threw e)).
Proof.
  split; [|split].
  - intros Hpre. now rewrite run_steps_app, Hpre.
  - intros e Hpre. now rewrite run_steps_app, Hpre.
  - intros step e Hpre Hstep.
    rewrite run_steps_app, Hpre, run_steps_cons.
    destruct (exec_step step env m1) as [m2 r]. cbn [fst snd] in *.
    now subst r.
Qed.

Lemma run_steps_sequential_witness :
  run_steps ([mk_step "wait" (JNum "2000")] ++ click_plan) env_click_timeout boot
  = (fst (exec_step (mk_step "click" (JStr "text=Sign in")) env_click_timeout
            (fst (run_steps [mk_step "wait" (JNum "2000")]
                    env_click_timeout boot))),
     Threw (External "locator.click: Timeout 10000ms exceeded.")).
Proof.
  destruct (run_steps_sequential env_click_timeout
              [mk_step "wait" (JNum "2000")]
              [mk_step "extractCode" (JStr ".ui")] boot
              (fst (run_steps [mk_step "wait" (JNum "2000")]
                      env_click_timeout boot))) as (_ & _ & H).
  apply (H (mk_step "click" (JStr "text=Sign in"))); reflexivity.
Defined.

(** *** The type branch *)

Lemma falsy_pair (a b : bool) : a && b = false -> a = false \/ (a = true /\ b = false).
Proof. destruct a, b; auto. Qed.

(** A [type] step whose details are not an object with a truthy [selector]
    and a truthy [text] (and are not [null]) fills nothing: it warns with
    the details and the loop goes on. *)
Theorem type_malformed_details_skipped env m step :
  has_action "type" step = true ->
  details_of step <> JNull ->
  truthy (prop (details_of step) "selector")
  && truthy (prop (details_of step) "text") = false ->
  exec_step step env m
    = (record (warn_type_details (details_of step)) m, Ok tt).
Proof.
  intros H Hnull Hbad. enter_branch step H.
  all: unfold_ops; unfold warn_type_details.
  all: destruct (details_of _) eqn:Hd; try congruence; try reflexivity.
  all: cbv [prop default from_option id get_prop] in Hbad.
  all: cbn [typeof_is_object get_prop]; norm.
  all: apply falsy_pair in Hbad as [Hs | [Hs Ht]]; rewrite Hs; norm;
    try reflexivity.
  all: rewrite Ht; reflexivity.
Qed.

Lemma type_malformed_details_skipped_witness :
  exec_step (mk_step "type" (JObj [("selector", JStr "#chat")])) env_plain boot
  = (record (warn_type_details (JObj [("selector", JStr "#chat")])) boot,
     Ok tt).
Proof.
  apply (type_malformed_details_skipped env_plain boot
           (mk_step "type" (JObj [("selector", JStr "#chat")])));
    (reflexivity || discriminate).
Defined.

(** [typeof null] is ["object"], so the guards of the type and refineCode
    branches read a property of [null]: a [type] step with details [null],
    and a [refineCode] step with details [null] met when there is code,
    throw a [TypeError] before anything is logged or called. *)
Theorem null_details_throw env m step :
  details_of step = JNull ->
  (has_action "type" step = true ->
   exec_step step env m
   = (m, Threw (TypeError
                  "Cannot read properties of null (reading 'selector')"))) /\
  (has_action "refineCode" step = true ->
   currentUIcode (vars m) <> "" ->
   exec_step step env m
   = (m, Threw (TypeError
                  "Cannot read properties of null (reading 'refinement')"))).
Proof.
  intros Hd. split.
  - intros H. enter_branch step H.
    all: unfold_ops; rewrite Hd; reflexivity.
  - intros H Hcode. enter_branch step H.
    all: unfold_ops; rewrite Hd, (str_nonempty_true _ Hcode); reflexivity.
Qed.

Lemma null_details_throw_witness :
  exec_step (mk_step "type" JNull) env_plain boot
  = (boot, Threw (TypeError
                    "Cannot read properties of null (reading 'selector')")).
Proof.
  destruct (null_details_throw env_plain boot (mk_step "type" JNull) eq_refl)
    as [H _].
  apply H. reflexivity.
Defined.

(** A [type] step whose details carry a truthy [selector] and a truthy
    [text], both of which convert to a string for the log line (strings,
    say), fills with exactly these two values, then waits 1000 ms; a fill
    that fails ends the step with its error, before the wait. *)
Theorem type_fills_as_given env m step :
  truthy (prop (details_of step) "selector") = true ->
  truthy (prop (details_of step) "text") = true ->
  printable (prop (details_of step) "selector") = true ->
  printable (prop (details_of step) "text") = true ->
  has_action "type" step = true ->
  let selector := prop (details_of step) "selector" in
  let txt := prop (details_of step) "text" in
  let m1 := record (Fill selector txt) (record (log_typing txt selector) m) in
  let m2 := record (WaitForTimeout (Num 1000)) m1 in
  exec_step step env m
  = match settles env (trace m1) with
    | Some e => (m1, Threw e)
    | None => (m2, match settles env (trace m2) with
                   | None => Ok tt
                   | Some e => Threw e
                   end)
    end.
Proof.
  intros Hs Ht Hps Hpt H selector txt m1 m2.
  destruct (truthy_prop_is_object _ _ Hs) as [Hobj Hgs].
  destruct (truthy_prop_is_object _ _ Ht) as [_ Hgt].
  apply printable_rendered in Hps, Hpt.
  enter_branch step H.
  all: subst selector txt m1 m2; unfold_ops; unfold log_typing.
  all: rewrite Hobj, Hgs, Hgt, Hs, Ht; norm; rewrite Hps, Hpt.
  all: run_cases.
Qed.

Lemma type_fills_as_given_witness :
  exec_step (mk_step "type" (JObj [("selector", JStr "#chat-main-textarea");
                                   ("text", JStr "a landing page")]))
    env_plain boot
  = (record (WaitForTimeout (Num 1000))
       (record (Fill (JStr "#chat-main-textarea") (JStr "a landing page"))
          (record (log_typing (JStr "a landing page")
                     (JStr "#chat-main-textarea")) boot)),
     Ok tt).
Proof.
  apply (type_fills_as_given env_plain boot
           (mk_step "type" (JObj [("selector", JStr "#chat-main-textarea");
                                  ("text", JStr "a landing page")])));
    reflexivity.
Defined.

(** *** Navigating, and a bound on the counter *)

(** A [navigate] step whose details convert to a string logs them, passes
    them to [page.goto] as they are, then waits 2000 ms; a navigation that
    fails ends the step with its error, before the wait.  Details that do
    not convert to a string end the step with a [TypeError] before anything
    is logged or called. *)
Theorem navigate_goes_as_given env m step :
  has_action "navigate" step = true ->
  let d := details_of step in
  let m1 := record (Goto d) (record (log_navigating d) m) in
  let m2 := record (WaitForTimeout (Num 2000)) m1 in
  (printable d = true ->
   exec_step step env m
   = match settles env (trace m1) with
     | Some e => (m1, Threw e)
     | None => (m2, match settles env (trace m2) with
                    | None => Ok tt
                    | Some e => Threw e
                    end)
     end) /\
  (printable d = false -> exec_step step env m = (m, Threw not_convertible)).
Proof.
  intros H d m1 m2. split.
  - intros Hp. apply printable_rendered in Hp. enter_branch step H.
    all: subst d m1 m2; unfold_ops; unfold log_navigating; rewrite Hp.
    all: run_cases.
  - intros Hp. apply exec_unprintable; auto.
Qed.

Lemma navigate_goes_as_given_witness :
  exec_step (mk_step "navigate" (JNum "404")) env_plain boot
  = (record (WaitForTimeout (Num 2000))
       (record (Goto (JNum "404"))
          (record (Console LLog [text "Navigating to 404"]) boot)),
     Ok tt).
Proof.
  apply (navigate_goes_as_given env_plain boot (mk_step "navigate" (JNum "404")));
    reflexivity.
Defined.

(** However a run goes and whatever the collaborators answer, the counter
    grows by at most the number of [refineCode] steps in the list. *)
Theorem count_bounded_by_refine_steps env steps m :
  (iterationCount (vars (fst (run_steps steps env m)))
   <= iterationCount (vars m) + count_refine steps)%nat.
Proof.
  revert m. induction steps as [|step steps IH]; intros m.
  - cbn. lia.
  - rewrite run_steps_cons. cbn [count_refine].
    pose proof (step_effect_count _ _ _ _ (exec_step_effect env m step))
      as Hstep.
    destruct (exec_step step env m) as [m' [[]|e]]; cbn [fst] in *.
    + specialize (IH m').
      destruct Hstep as [Heq | [Hr Heq]].
      * rewrite Heq in IH. lia.
      * rewrite Hr, Heq in *. lia.
    + destruct Hstep as [Heq | [Hr Heq]]; [|rewrite Hr]; lia.
Qed.

(** *** Failures of an extraction *)



(** *** Steps the loop only warns about *)

(** A step whose action is none of the six (a misspelt action, an action
    that is not a string, a step without action) only warns with the action
    it carries; a step that is [null] cannot be destructured and throws a
    [TypeError].  Neither calls the browser, the provider or the file
    system. *)
Theorem unknown_action_skipped env m step :
  known_action step = false ->
  match step with
  | JUndefined | JNull =>
      exists msg, exec_step step env m = (m, Threw (TypeError msg))
  | _ => exec_step step env m
         = (record (warn_unknown (action_of step)) m, Ok tt)
  end.
Proof.
  unfold known_action. intros Hk.
  repeat (apply orb_false_elim in Hk as [Hk ?]).
  unfold exec_step. rewrite bind_run, destructure_run.
  destruct step; try (eexists; reflexivity).
  all: fold_has_action.
  all: repeat match goal with
         | Hf : has_action _ _ = false |- _ => rewrite Hf; clear Hf
         end.
  all: reflexivity.
Qed.

Lemma unknown_action_skipped_witness :
  exec_step (mk_step "scroll" (JNum "300")) env_plain boot
  = (record (warn_unknown (JStr "scroll")) boot, Ok tt).
Proof.
  apply (unknown_action_skipped env_plain boot (mk_step "scroll" (JNum "300"))).
  reflexivity.
Defined.

(** A [refineCode] step met when there is code, whose details are not an
    object with a truthy [refinement] (and are not [null]), calls no
    provider: it warns with the details and the loop goes on with the
    variables and the files as they were. *)
Theorem refine_invalid_details_skipped env m step :
  has_action "refineCode" step = true ->
  currentUIcode (vars m) <> "" ->
  details_of step <> JNull ->
  truthy (prop (details_of step) "refinement") = false ->
  exec_step step env m
    = (record (warn_refine_details (details_of step)) m, Ok tt).
Proof.
  intros H Hcode Hnull Hbad. enter_branch step H.
  all: unfold_ops; unfold warn_refine_details.
  all: rewrite (str_nonempty_true _ Hcode).
  all: destruct (details_of _) eqn:Hd; try congruence; try reflexivity.
  all: cbv [prop default from_option id get_prop] in Hbad.
  all: cbn [typeof_is_object get_prop]; norm; try rewrite Hbad; reflexivity.
Qed.

Lemma refine_invalid_details_skipped_witness :
  exec_step (mk_step "refineCode" (JStr "make responsive")) env_plain
    (after_extraction env_plain)
  = (record (warn_refine_details (JStr "make responsive"))
       (after_extraction env_plain), Ok tt).
Proof.
  apply (refine_invalid_details_skipped env_plain (after_extraction env_plain)
           (mk_step "refineCode" (JStr "make responsive")));
    (reflexivity || discriminate).
Defined.

(** *** A refinement that fails *)

(** When the provider call of a [refineCode] step rejects, or reading the
    text out of its response throws, the step throws that error right after
    the request: [currentUIcode] keeps the code it had, the counter is not
    incremented and no file is written. *)
Theorem refine_failure_keeps_state env m step e :
  has_action "refineCode" step = true ->
  currentUIcode (vars m) <> "" ->
  truthy (prop (details_of step) "refinement") = true ->
  printable (prop (details_of step) "refinement") = true ->
  let refinement := prop (details_of step) "refinement" in
  let m1 := record (ChatCreate (refine_request (currentUIcode (vars m))
                                  refinement))
              (record (log_refining refinement) m) in
  (chat_response env (trace m1) = Threw e \/
   exists response, chat_response env (trace m1) = Ok response /\
                    message_text response = Threw e) ->
  exec_step step env m = (m1, Threw e) /\
  vars m1 = vars m /\ files m1 = files m /\
  written (trace m1) = written (trace m).
Proof.
  intros H Hcode Ht Hp R m1 Hfail.
  rewrite (exec_refine env m step H Hcode Ht Hp). fold R. fold m1. cbv zeta.
  split.
  - destruct Hfail as [-> | (response & -> & ->)]; reflexivity.
  - subst m1. norm. tidy_written. auto.
Qed.

Lemma refine_failure_keeps_state_witness :
  exec_step (refine_with "make responsive") env_bare_reply
    (after_extraction env_bare_reply)
  = (record (ChatCreate (refine_request "<div>UI</div>"
                           (JStr "make responsive")))
       (record (log_refining (JStr "make responsive"))
          (after_extraction env_bare_reply)),
     Threw (TypeError "Cannot read properties of undefined (reading '0')")).
Proof.
  assert (Hcode : currentUIcode (vars (after_extraction env_bare_reply)) <> "")
    by discriminate.
  destruct (refine_failure_keeps_state env_bare_reply
              (after_extraction env_bare_reply)
              (refine_with "make responsive")
              (TypeError "Cannot read properties of undefined (reading '0')")
              eq_refl Hcode eq_refl eq_refl) as [H _].
  - right. eexists. split; reflexivity.
  - exact H.
Defined.

(** *** Reading the text of a response *)

(** What [response?.choices[0]?.message?.content?.trim() ?? ""] gives, case
    by case: the trimmed content when the response carries a content
    string; the empty string when the response, the choice, the message or
    the content is [null] or absent; and a [TypeError] otherwise (no
    [choices] to index, or a content that is not a string).  It gives
    nothing else. *)
Theorem message_text_cases response :
  match reply_content response with
  | Some s => message_text response = Ok (trim s)
  | None =>
      if content_absent response
      then message_text response = Ok ""
      else exists msg, message_text response = Threw (TypeError msg)
  end.
Proof.
  unfold reply_content, content_absent, message_text, prop.
  destruct response; cbn [nullish get_prop default from_option id orb];
    try (eexists; reflexivity); try reflexivity.
  destruct (get_index0 (assoc "choices" props)) as [choice|];
    [|eexists; reflexivity].
  destruct choice; cbn [nullish get_prop default from_option id orb];
    try reflexivity.
  destruct (assoc "message" props0);
    cbn [nullish get_prop default from_option id orb]; try reflexivity.
  destruct (assoc "content" props1); cbn [nullish];
    try (eexists; reflexivity); reflexivity.
Qed.

(** A response object whose [choices] are absent or [null] makes a
    [refineCode] step that asked the provider throw a [TypeError], whose
    message names [undefined] or [null] accordingly: the expression indexes
    [choices] without guarding it.  The run ends there with the code and the
    counter as they were. *)
Theorem missing_choices_abort_refinement env m step response :
  has_action "refineCode" step = true ->
  currentUIcode (vars m) <> "" ->
  truthy (prop (details_of step) "refinement") = true ->
  printable (prop (details_of step) "refinement") = true ->
  let refinement := prop (details_of step) "refinement" in
  let m1 := record (ChatCreate (refine_request (currentUIcode (vars m))
                                  refinement))
              (record (log_refining refinement) m) in
  chat_response env (trace m1) = Ok response ->
  nullish response = false ->
  nullish (prop response "choices") = true ->
  exec_step step env m
    = (m1, Threw (TypeError
                    ("Cannot read properties of "
                     +:+ nullish_name (prop response "choices")
                     +:+ " (reading '0')"))) /\
  vars m1 = vars m.
Proof.
  intros H Hcode Ht Hp R m1 Hresp Hr Hchoices.
  rewrite (exec_refine env m step H Hcode Ht Hp). fold R. fold m1. cbv zeta.
  rewrite Hresp. unfold message_text. rewrite Hr.
  change (default JUndefined (get_prop response "choices"))
    with (prop response "choices").
  destruct (prop response "choices"); try discriminate; split; reflexivity.
Qed.

Lemma missing_choices_abort_refinement_witness :
  exec_step (refine_with "make responsive") env_bare_reply
    (after_extraction env_bare_reply)
  = (record (ChatCreate (refine_request "<div>UI</div>"
                           (JStr "make responsive")))
       (record (log_refining (JStr "make responsive"))
          (after_extraction env_bare_reply)),
     Threw (TypeError "Cannot read properties of undefined (reading '0')")).
Proof.
  assert (Hcode : currentUIcode (vars (after_extraction env_bare_reply)) <> "")
    by discriminate.
  destruct (missing_choices_abort_refinement env_bare_reply
              (after_extraction env_bare_reply)
              (refine_with "make responsive")
              (JObj [("error", JStr "overloaded")])
              eq_refl Hcode eq_refl eq_refl eq_refl eq_refl eq_refl)
    as [H _].
  exact H.
Defined.

(** *** Trimming *)

Lemma first_char_trim_start s c :
  first_char (trim_start s) = Some c -> is_white_space c = false.
Proof.
  induction s as [|a s IH]; cbn [trim_start]; [discriminate|].
  destruct (is_white_space a) eqn:Ha; [assumption|].
  cbn. now intros [= <-].
Qed.

Lemma first_char_trim_end s c :
  first_char (trim_end s) = Some c -> first_char s = Some c.
Proof.
  destruct s as [|a s]; cbn [trim_end]; [discriminate|].
  destruct (trim_end s); [destruct (is_white_space a)|]; cbn;
    (discriminate || auto).
Qed.

Lemma last_char_trim_end s c :
  last_char (trim_end s) = Some c -> is_white_space c = false.
Proof.
  induction s as [|a s IH]; cbn [trim_end]; [discriminate|].
  destruct (trim_end s) as [|b t] eqn:Ht.
  - destruct (is_white_space a) eqn:Ha; cbn; [discriminate|].
    now intros [= <-].
  - exact IH.
Qed.

Lemma trim_clean_edges s : clean_edges (trim s).
Proof.
  intros c [Hf | Hl].
  - apply first_char_trim_end in Hf. now apply first_char_trim_start in Hf.
  - now apply last_char_trim_end in Hl.
Qed.

(** The code [refineUICode] returns never begins or ends with white
    space, and neither does the code a [refineCode] step stores in
    [currentUIcode] and writes to the iteration file. *)
Theorem refined_code_has_clean_edges env :
  (forall code refinement m m' refined,
     refineUICode code refinement env m = (m', Ok refined) ->
     clean_edges refined) /\
  (forall m step refined,
     refine_succeeds env m step refined -> clean_edges refined).
Proof.
  assert (Htext : forall response refined,
             message_text response = Ok refined -> clean_edges refined).
  { intros response refined.
    pose proof (message_text_cases response) as Hcases.
    destruct (reply_content response) as [s|].
    - rewrite Hcases. intros [= <-]. apply trim_clean_edges.
    - destruct (content_absent response).
      + rewrite Hcases. intros [= <-]. intros c [Hc | Hc]; discriminate Hc.
      + destruct Hcases as [msg ->]. discriminate. }
  split.
  - intros code R m m' refined. unfold_ops.
    destruct (to_string R) as [instruction|]; [|discriminate].
    destruct (chat_response env _) as [response|e]; [|discriminate].
    destruct (message_text response) as [t|e] eqn:Ht; [|discriminate].
    intros [= _ <-]. eapply Htext; eauto.
  - intros m step refined (_ & _ & _ & _ & (response & _ & Ht) & _).
    eapply Htext; eauto.
Qed.

Lemma refined_code_has_clean_edges_witness :
  clean_edges "<div class='r'>UI</div>".
Proof.
  destruct (refined_code_has_clean_edges
              (env_with "<div>UI</div>"
                 (completion (JStr "  <div class='r'>UI</div>
")))) as [H _].
  apply (H "<div>UI</div>" (JStr "make responsive") boot
           (record (ChatCreate (refine_request "<div>UI</div>"
                                  (JStr "make responsive"))) boot)).
  reflexivity.
Defined.

(** *** Waiting a number of milliseconds *)

Lemma digits_value_of_uint_acc d p :
  Z.pos (Pos.of_uint_acc d p) = digits_value d (Z.pos p).
Proof.
  revert p. induction d; intros p; cbn [Pos.of_uint_acc digits_value];
    [reflexivity | rewrite IHd; f_equal; lia ..].
Qed.

Lemma digits_value_of_uint d : Z.of_uint d = digits_value d 0.
Proof.
  unfold Z.of_uint.
  induction d; cbn [Pos.of_uint digits_value Z.of_N];
    [reflexivity | exact IHd | apply digits_value_of_uint_acc ..].
Qed.

Lemma parse_digits_decimal d acc :
  parse_digits 10 (NilEmpty.string_of_uint d) acc
  = match d with
    | Decimal.Nil => acc
    | _ => Some (digits_value d (default 0 acc))
    end.
Proof.
  revert acc.
  induction d; intros acc; [reflexivity | ..].
  all: cbn [NilEmpty.string_of_uint parse_digits].
  all: match goal with
       | |- context [digit_value 10 ?c] =>
           let v := eval vm_compute in (digit_value 10 c) in
           change (digit_value 10 c) with v
       end.
  all: cbv iota beta; rewrite IHd; cbn [digits_value default from_option id].
  all: rewrite ?Z.add_0_r; destruct d; reflexivity.
Qed.

(** The front of [parseInt] (white space, sign, [0x]) leaves a decimal
    numeral as it is. *)
Lemma parseInt_numeral d :
  d <> Decimal.Nil ->
  parseInt_string (NilEmpty.string_of_uint d)
    = (if safe_integer (1 * digits_value d 0)
       then Num (1 * digits_value d 0)
       else Rounded (1 * digits_value d 0)) /\
  parseInt_string (String "-" (NilEmpty.string_of_uint d))
    = (if safe_integer (-1 * digits_value d 0)
       then Num (-1 * digits_value d 0)
       else Rounded (-1 * digits_value d 0)).
Proof.
  intros Hd.
  assert (Hfront :
    parseInt_string (NilEmpty.string_of_uint d)
      = match parse_digits 10 (NilEmpty.string_of_uint d) None with
        | None => NaN
        | Some n => if safe_integer (1 * n) then Num (1 * n)
                    else Rounded (1 * n)
        end /\
    parseInt_string (String "-" (NilEmpty.string_of_uint d))
      = match parse_digits 10 (NilEmpty.string_of_uint d) None with
        | None => NaN
        | Some n => if safe_integer (-1 * n) then Num (-1 * n)
                    else Rounded (-1 * n)
        end).
  { destruct d as [|d|d|d|d|d|d|d|d|d|d]; [congruence | ..];
      destruct d; split; reflexivity. }
  rewrite parse_digits_decimal in Hfront.
  destruct d; [congruence | exact Hfront ..].
Qed.

(** [parseInt] reads a safe integer back from its text. *)
Lemma parseInt_integer z :
  safe_integer z = true -> parseInt_string (number_to_string z) = Num z.
Proof.
  intros Hsafe. destruct z as [|p|p].
  - reflexivity.
  - change (number_to_string (Z.pos p))
      with (NilZero.string_of_uint (Pos.to_uint p)).
    pose proof (DecimalPos.Unsigned.to_uint_nonnil p) as Hnil.
    pose proof (DecimalZ.of_to (Z.pos p)) as Hval.
    cbn [Z.to_int Z.of_int] in Hval. rewrite digits_value_of_uint in Hval.
    destruct (parseInt_numeral _ Hnil) as [Hpos _].
    replace (1 * digits_value (Pos.to_uint p) 0)%Z with (Z.pos p) in Hpos
      by lia.
    rewrite Hsafe in Hpos.
    unfold NilZero.string_of_uint.
    destruct (Pos.to_uint p) eqn:Hp; [congruence | exact Hpos ..].
  - change (number_to_string (Z.neg p))
      with (String "-" (NilZero.string_of_uint (Pos.to_uint p))).
    pose proof (DecimalPos.Unsigned.to_uint_nonnil p) as Hnil.
    pose proof (DecimalZ.of_to (Z.neg p)) as Hval.
    cbn [Z.to_int Z.of_int] in Hval. rewrite digits_value_of_uint in Hval.
    destruct (parseInt_numeral _ Hnil) as [_ Hneg].
    replace (-1 * digits_value (Pos.to_uint p) 0)%Z with (Z.neg p) in Hneg
      by lia.
    rewrite Hsafe in Hneg.
    unfold NilZero.string_of_uint.
    destruct (Pos.to_uint p) eqn:Hp; [congruence | exact Hneg ..].
Qed.

(** A [wait] step whose details are a safe integer (at most 2^53 - 1 in
    absolute value), given as a number or as its decimal numeral in a
    string, waits exactly that many milliseconds: [parseInt] reads back the
    integer, the step logs it and passes it to the timer, and returns unless
    the timer call fails. *)
Theorem integer_wait_round_trip env m step z :
  has_action "wait" step = true ->
  safe_integer z = true ->
  details_of step = number z \/ details_of step = JStr (number_to_string z) ->
  let m1 := record (WaitForTimeout (Num z)) (record (log_waiting z) m) in
  parseInt (details_of step) = Some (Num z) /\
  exec_step step env m
    = (m1, match settles env (trace m1) with
           | None => Ok tt
           | Some e => Threw e
           end).
Proof.
  intros H Hsafe Hd m1.
  assert (Hparse : parseInt (details_of step) = Some (Num z)).
  { destruct Hd as [-> | ->]; unfold parseInt, number; cbn [to_string option_map];
      now rewrite parseInt_integer. }
  split; [assumption|].
  now rewrite (exec_wait env m step (Num z) H Hparse).
Qed.

Lemma integer_wait_round_trip_witness :
  exec_step (mk_step "wait" (JStr "3000")) env_plain boot
  = (record (WaitForTimeout (Num 3000)) (record (log_waiting 3000) boot),
     Ok tt).
Proof.
  destruct (integer_wait_round_trip env_plain boot
              (mk_step "wait" (JStr "3000")) 3000 eq_refl eq_refl) as [_ H].
  - right. reflexivity.
  - exact H.
Defined.

(** *** The earlier loop *)

(** The loop of [src/index.ts] does on a navigate or type step exactly what
    the present loop does, and on every other step that can be destructured
    it does nothing at all, not even warn; so on a list of navigate and
    type steps the two loops give the same run. *)
Theorem legacy_loop_agrees env :
  (forall m step,
     has_action "navigate" step = true \/ has_action "type" step = true ->
     Legacy.exec_step step env m = exec_step step env m) /\
  (forall m step,
     has_action "navigate" step = false ->
     has_action "type" step = false ->
     nullish step = false ->
     Legacy.exec_step step env m = (m, Ok tt)) /\
  (forall steps m,
     Forall (fun step => has_action "navigate" step = true \/
                         has_action "type" step = true) steps ->
     Legacy.run_steps steps env m = run_steps steps env m).
Proof.
  assert (Hstep : forall m step,
             has_action "navigate" step = true \/ has_action "type" step = true ->
             Legacy.exec_step step env m = exec_step step env m).
  { intros m step Hact.
    unfold Legacy.exec_step, exec_step. rewrite !bind_run, destructure_run.
    destruct step; try reflexivity; fold_has_action.
    all: destruct Hact as [Hn | Ht];
      [rewrite Hn; reflexivity
      | rewrite (has_action_unique _ "navigate" _ Ht) by discriminate;
        rewrite Ht; reflexivity]. }
  split; [exact Hstep | split].
  - intros m step Hn Ht Hnull.
    unfold Legacy.exec_step. rewrite bind_run, destructure_run.
    destruct step; try discriminate; fold_has_action;
      rewrite Hn, Ht; reflexivity.
  - intros steps m Hsteps. revert m.
    induction Hsteps as [|step steps Hact _ IH]; intros m; [reflexivity|].
    rewrite run_steps_cons.
    change (Legacy.run_steps (step :: steps) env m)
      with (match Legacy.exec_step step env m with
            | (m', Ok _) => Legacy.run_steps steps env m'
            | (m', Threw e) => (m', Threw e)
            end).
    rewrite (Hstep m step Hact).
    destruct (exec_step step env m) as [m' [[]|e]]; [apply IH | reflexivity].
Qed.

Lemma legacy_loop_agrees_witness :
  Legacy.run_steps [mk_step "navigate" (JStr "https://v0.dev/");
                    mk_step "type" (JObj [("selector", JStr "#chat");
                                          ("text", JStr "a landing page")])]
    env_plain boot
  = run_steps [mk_step "navigate" (JStr "https://v0.dev/");
               mk_step "type" (JObj [("selector", JStr "#chat");
                                     ("text", JStr "a landing page")])]
      env_plain boot.
Proof.
  destruct (legacy_loop_agrees env_plain) as (_ & _ & H).
  apply H.
  constructor; [left; reflexivity|].
  constructor; [right; reflexivity|].
  constructor.
Defined.

(** *** Getting the instructions *)

Lemma generateInstructions_run command env m :
  let m1 := record (ChatCreate (instructions_request command)) m in
  generateInstructions command env m
  = match chat_response env (trace m1) with
    | Threw e => (m1, Threw e)
    | Ok response =>
        match message_text response with
        | Threw e => (m1, Threw e)
        | Ok txt =>
            match JSON_parse env txt with
            | Some v => (m1, Ok v)
            | None => (record (log_parse_failure txt) m1, Threw invalid_json)
            end
        end
    end.
Proof.
  unfold generateInstructions, try_JSON_parse, instructions_request,
    log_parse_failure, invalid_json.
  unfold_ops. norm. repeat (inner_case; norm); reflexivity.
Qed.

Lemma runBrowserAgent_run command env m :
  runBrowserAgent command env m
  = match generateInstructions command env (record (log_processing command) m)
    with
    | (m1, Threw e) => (m1, Threw e)
    | (m1, Ok instructions) =>
        let m2 := record (log_generated instructions) m1 in
        match settles env (trace m2 ++ [Launch false]) with
        | Some e => (record (Launch false) m2, Threw e)
        | None =>
            match settles env (trace m2 ++ [Launch false; NewContext]) with
            | Some e => (record NewContext (record (Launch false) m2), Threw e)
            | None =>
                match settles env (trace m2 ++ [Launch false; NewContext;
                                                NewPage]) with
                | Some e =>
                    (record NewPage
                       (record NewContext (record (Launch false) m2)), Threw e)
                | None =>
                    if iterable instructions then
                      match run_steps (elements instructions) env
                              (loop_entry m1 instructions) with
                      | (m3, Threw e) => (m3, Threw e)
                      | (m3, Ok _) =>
                          match settles env (trace m3
                                             ++ [Screenshot "final_ui.png"])
                          with
                          | Some e =>
                              (record (Screenshot "final_ui.png") m3, Threw e)
                          | None => (finished m3, Ok tt)
                          end
                      end
                    else (loop_entry m1 instructions, Threw not_iterable)
                end
            end
        end
    end.
Proof.
  unfold runBrowserAgent. rewrite bind_run.
  change (console LLog [text "Processing command:"; text command] env m)
    with (record (log_processing command) m, Ok tt).
  cbv iota beta. rewrite bind_run.
  destruct (generateInstructions command env _) as [m1 [v|e]]; [|reflexivity].
  unfold loop_entry, opened, finished, iterate, elements, iterable,
    not_iterable, log_generated, log_screenshot, log_final.
  unfold_ops. norm. rewrite <- !app_assoc. cbn [app].
  destruct (settles env (trace m1 ++ [_; Launch false])); [reflexivity|].
  destruct (settles env (trace m1 ++ [_; Launch false; NewContext]));
    [reflexivity|].
  destruct (settles env (trace m1 ++ [_; Launch false; NewContext; NewPage]));
    [reflexivity|].
  destruct v; try reflexivity.
  all: match goal with
       | |- context [run_steps ?steps ?env0 ?m0] =>
           destruct (run_steps steps env0 m0) as [m3 [[]|e]]
       end; try reflexivity.
  all: norm; match goal with
             | |- context [settles ?env0 ?tr] => destruct (settles env0 tr)
             end; try reflexivity.
  all: destruct (str_nonempty _); reflexivity.
Qed.

(** When the text of the model's answer does not parse as JSON,
    [runBrowserAgent] logs the text with [console.error] and throws
    [Error("Invalid JSON from LLM")]; the request and the two console lines
    are all it has done, and the handler of the top level then only logs
    the error. *)
Theorem parse_failure_aborts_before_browser command env m response txt :
  let asked := record (ChatCreate (instructions_request command))
                 (record (log_processing command) m) in
  chat_response env (trace asked) = Ok response ->
  message_text response = Ok txt ->
  JSON_parse env txt = None ->
  runBrowserAgent command env m
    = (record (log_parse_failure txt) asked, Threw invalid_json) /\
  trace (record (log_parse_failure txt) asked)
    = trace m ++ [log_processing command;
                  ChatCreate (instructions_request command);
                  log_parse_failure txt].
Proof.
  intros asked Hresp Htext Hparse. split.
  - rewrite runBrowserAgent_run, generateInstructions_run. cbv zeta.
    fold asked. now rewrite Hresp, Htext, Hparse.
  - subst asked. norm. now rewrite <- !app_assoc.
Qed.

Lemma parse_failure_aborts_before_browser_witness :
  runBrowserAgent default_command env_prose boot
  = (record (log_parse_failure "Sure! Here are the steps.")
       (record (ChatCreate (instructions_request default_command))
          (record (log_processing default_command) boot)),
     Threw invalid_json).
Proof.
  apply (parse_failure_aborts_before_browser default_command env_prose boot
           (completion (JStr "Sure! Here are the steps."))
           "Sure! Here are the steps."); reflexivity.
Defined.

(** Whatever makes [generateInstructions] throw (the request rejected, a
    response that cannot be read, a text that does not parse),
    [runBrowserAgent] throws the same error at once: what the run has added
    to the trace contains no call to the browser. *)
Theorem instruction_failure_never_launches command env m m1 e :
  generateInstructions command env (record (log_processing command) m)
    = (m1, Threw e) ->
  runBrowserAgent command env m = (m1, Threw e) /\
  exists added, trace m1 = trace m ++ added /\
                Forall (fun ev => is_browser_event ev = false) added.
Proof.
  intros Hgen. split.
  - now rewrite runBrowserAgent_run, Hgen.
  - rewrite generateInstructions_run in Hgen. cbv zeta in Hgen.
    revert Hgen. norm. repeat (inner_case; norm); intros [= <- <-]; norm.
    all: rewrite <- ?app_assoc; cbn [app]; eexists; split; [reflexivity|].
    all: repeat constructor.
Qed.

Lemma instruction_failure_never_launches_witness :
  runBrowserAgent default_command env_bare_reply boot
  = (record (ChatCreate (instructions_request default_command))
       (record (log_processing default_command) boot),
     Threw (TypeError "Cannot read properties of undefined (reading '0')")).
Proof.
  apply (instruction_failure_never_launches default_command env_bare_reply
           boot). reflexivity.
Defined.

(** *** Entering the loop *)

(** Instructions that parse to a value that cannot be iterated (an object,
    a number, a boolean, [null]) make the [for] loop throw a [TypeError].
    By then the browser has been launched: the run ends with the page open,
    no step executed and no screenshot taken. *)
Theorem non_iterable_instructions_throw command env m m1 instructions :
  reaches_loop env command m m1 instructions ->
  iterable instructions = false ->
  runBrowserAgent command env m
    = (loop_entry m1 instructions, Threw not_iterable) /\
  last (trace (loop_entry m1 instructions)) = Some NewPage.
Proof.
  intros (Hgen & Hl & Hc & Hp) Hiter. split.
  - rewrite runBrowserAgent_run, Hgen. cbv zeta. now rewrite Hl, Hc, Hp, Hiter.
  - unfold loop_entry, opened. norm. apply last_snoc.
Qed.

Lemma non_iterable_instructions_throw_witness :
  runBrowserAgent default_command env_wrapped boot
  = (loop_entry
       (record (ChatCreate (instructions_request default_command))
          (record (log_processing default_command) boot))
       wrapped_plan,
     Threw not_iterable).
Proof.
  apply (non_iterable_instructions_throw default_command env_wrapped boot).
  - repeat split; reflexivity.
  - reflexivity.
Defined.

(** Instructions that parse to a JSON string are iterated character by
    character: each character is a step without action, so the loop warns
    once per character and does nothing else. *)
Theorem string_instructions_only_warn env s m :
  exists m', run_steps (chars s) env m = (m', Ok tt) /\
             vars m' = vars m /\ files m' = files m /\
             trace m' = trace m
                        ++ replicate (String.length s) (warn_unknown JUndefined).
Proof.
  revert m. induction s as [|c s IH]; intros m.
  - exists m. cbn. rewrite app_nil_r. auto.
  - cbn [chars String.length replicate]. rewrite run_steps_cons.
    assert (Hstep : exec_step (JStr (String c EmptyString)) env m
                    = (record (warn_unknown JUndefined) m, Ok tt)) by reflexivity.
    rewrite Hstep.
    destruct (IH (record (warn_unknown JUndefined) m))
      as (m' & Hrun & Hv & Hf & Htr).
    exists m'. repeat split; try assumption.
    rewrite Htr. norm. now rewrite <- app_assoc.
Qed.

(** *** Leaving the loop *)

(** When the loop returns, [runBrowserAgent] takes the screenshot
    [final_ui.png], reports it, and shows the code when there is some; it
    returns unless the screenshot fails.  The variables and the files are
    those the loop left. *)
Theorem completed_run_ends_with_screenshot command env m m1 instructions m3 :
  reaches_loop env command m m1 instructions ->
  iterable instructions = true ->
  run_steps (elements instructions) env (loop_entry m1 instructions)
    = (m3, Ok tt) ->
  runBrowserAgent command env m
    = match settles env (trace m3 ++ [Screenshot "final_ui.png"]) with
      | Some e => (record (Screenshot "final_ui.png") m3, Threw e)
      | None => (finished m3, Ok tt)
      end /\
  vars (finished m3) = vars m3 /\ files (finished m3) = files m3 /\
  trace (finished m3)
    = trace m3 ++ Screenshot "final_ui.png" :: log_screenshot
        :: (if str_nonempty (currentUIcode (vars m3))
            then [log_final (currentUIcode (vars m3))] else []).
Proof.
  intros (Hgen & Hl & Hc & Hp) Hiter Hrun. split.
  - rewrite runBrowserAgent_run, Hgen. cbv zeta.
    now rewrite Hl, Hc, Hp, Hiter, Hrun.
  - unfold finished. cbv zeta.
    destruct (str_nonempty _); norm; rewrite <- !app_assoc; auto.
Qed.

Lemma completed_run_ends_with_screenshot_witness :
  runBrowserAgent default_command env_session boot
  = (finished
       (fst (run_steps plan env_session
               (loop_entry
                  (record (ChatCreate (instructions_request default_command))
                     (record (log_processing default_command) boot))
                  (JArr plan)))),
     Ok tt).
Proof.
  apply (completed_run_ends_with_screenshot default_command env_session boot
           (record (ChatCreate (instructions_request default_command))
              (record (log_processing default_command) boot))
           (JArr plan)).
  - repeat split; reflexivity.
  - reflexivity.
  - reflexivity.
Defined.

(** When a step throws, [runBrowserAgent] throws the same error with the
    machine as the loop left it: nothing follows the failing call, so no
    screenshot is taken and no final code is shown. *)
Theorem loop_failure_skips_screenshot command env m m1 instructions m3 e :
  reaches_loop env command m m1 instructions ->
  iterable instructions = true ->
  run_steps (elements instructions) env (loop_entry m1 instructions)
    = (m3, Threw e) ->
  runBrowserAgent command env m = (m3, Threw e).
Proof.
  intros (Hgen & Hl & Hc & Hp) Hiter Hrun.
  rewrite runBrowserAgent_run, Hgen. cbv zeta.
  now rewrite Hl, Hc, Hp, Hiter, Hrun.
Qed.

Lemma loop_failure_skips_screenshot_witness :
  runBrowserAgent default_command env_click_timeout boot
  = (fst (run_steps click_plan env_click_timeout
            (loop_entry
               (record (ChatCreate (instructions_request default_command))
                  (record (log_processing default_command) boot))
               (JArr click_plan))),
     Threw (External "locator.click: Timeout 10000ms exceeded.")).
Proof.
  apply (loop_failure_skips_screenshot default_command env_click_timeout boot
           (record (ChatCreate (instructions_request default_command))
              (record (log_processing default_command) boot))
           (JArr click_plan)).
  - repeat split; reflexivity.
  - reflexivity.
  - reflexivity.
Defined.
